(** * Oscilloscope: the waveform and spectrum engines of the Surge scope overlay

  A functional model of [src/surge-xt/gui/overlays/Oscilloscope.cpp]:
  the per-sample trigger / decimation loop of [WaveformDisplay::process],
  the spectrum accumulator of [Oscilloscope::pullData], the dB conversion of
  [Oscilloscope::calculateSpectrumData] and the dirty-flag parameter stores;
  then the two [paint] functions as far as they read and write data, the
  redraw tick and the channel buttons of the scope, and the argument
  handling of [src/surge-testrunner/main.cpp].

  Numbers.  The source computes in [float] and [double].  The model is
  parametric in the arithmetic: every definition is written against the
  interface [Arith], whose comparisons are plain boolean functions, so the
  control-flow theorems hold for every carrier, IEEE arithmetic included.
  Where a theorem needs laws of the order or of the field, it is stated
  either under [ArithOrder] or on the exact instance over [Q].  What NaN
  and the infinities do is shown on the instance [Ieee.Float_Arith] over
  the kernel's binary64 numbers.

  Locks.  Every modelled member function runs under its [std::lock_guard]
  from the first to the last statement, so each one is an atomic state
  transformer; the locks themselves are not modelled. *)

From Stdlib Require Import ZArith QArith Qabs Qround Lia Lqa Bool.
From Stdlib Require Qpower String PrimFloat FloatOps.
From stdpp Require Import base list.

(** ** The arithmetic interface *)

Class Arith (F : Type) := {
  lit : Q -> F;             (* a floating literal of the source text *)
  of_int : Z -> F;          (* conversion of an [int] to floating point *)
  to_int : F -> Z;          (* [static_cast<int>] *)
  fadd : F -> F -> F;
  fsub : F -> F -> F;
  fmul : F -> F -> F;
  fdiv : F -> F -> F;
  fopp : F -> F;            (* unary minus *)
  fabs : F -> F;            (* [std::abs] *)
  fltb : F -> F -> bool;    (* [a < b] *)
  fleb : F -> F -> bool;    (* [a <= b] *)
  pow10 : F -> F;           (* [std::pow(10.f, x)] *)
  log10 : F -> F;           (* [std::log10] *)
  flt_max : F;              (* [std::numeric_limits<float>::max()] *)
  flt_lowest : F;           (* [std::numeric_limits<float>::lowest()] *)
  flt_min : F               (* [std::numeric_limits<float>::min()] *)
}.

Declare Scope arith_scope.
Delimit Scope arith_scope with F.
Infix "+" := fadd : arith_scope.
Infix "-" := fsub : arith_scope.
Infix "*" := fmul : arith_scope.
Infix "/" := fdiv : arith_scope.
Infix "<?" := fltb : arith_scope.
Infix "<=?" := fleb : arith_scope.
Notation "- a" := (fopp a) : arith_scope.
Notation "a >? b" := (fltb b a) (only parsing) : arith_scope.
Notation "a >=? b" := (fleb b a) (only parsing) : arith_scope.

(** The laws of a total order.  They hold for exact arithmetic.  No IEEE
  carrier has them, since a NaN is not below or equal to itself: a theorem
  under this class speaks of values that are numbers, and is used only
  where the code cannot meet a NaN. *)
Class ArithOrder (F : Type) `{Arith F} := {
  fleb_refl : forall a : F, fleb a a = true;
  fltb_false_fleb : forall a b : F, fltb a b = false -> fleb b a = true
}.

(** ** Exact arithmetic over the rationals *)

Module ExactQ.

Definition Qltb (a b : Q) : bool := negb (Qle_bool b a).

(** Ten to a power, exact at the integer exponents; another exponent is
  rounded down to an integer first. *)
Definition Qpow10 (x : Q) : Q := Qred (Qpower 10 (Qfloor x)).

(** The number of decimal digits of the integer part, minus one: the
  logarithm to base ten rounded down, for arguments of at least one. *)
Fixpoint digits (fuel : nat) (n : Z) : Z :=
  match fuel with
  | O => 0
  | S fuel' => if (n <? 10)%Z then 0%Z else (1 + digits fuel' (n / 10))%Z
  end.

Definition Qlog10 (x : Q) : Q :=
  let n := Qfloor x in inject_Z (digits (Z.to_nat n) n).

Definition FLT_MAX : Q := inject_Z ((2 ^ 24 - 1) * 2 ^ 104).
Definition FLT_MIN : Q := Qred (Qpower 2 (-126)).

#[export] Instance Q_Arith : Arith Q := {|
  lit := Qred;
  of_int := inject_Z;
  to_int := fun q => if Qle_bool 0 q then Qfloor q else Qceiling q;
  fadd := fun a b => Qred (a + b);
  fsub := fun a b => Qred (a - b);
  fmul := fun a b => Qred (a * b);
  fdiv := fun a b => Qred (a / b);
  fopp := Qopp;
  fabs := Qabs;
  fltb := Qltb;
  fleb := Qle_bool;
  pow10 := Qpow10;
  log10 := Qlog10;
  flt_max := FLT_MAX;
  flt_lowest := Qopp FLT_MAX;
  flt_min := FLT_MIN
|}.

End ExactQ.

(** ** JUCE helpers used by the source

  [juce::jlimit], [juce::jmap] and [juce::Decibels::gainToDecibels] with
  its default floor of -100 dB, transcribed from the JUCE headers. *)

Module juce.
Section Juce.
Context {F : Type} `{Arith F}.

Definition jlimit (lowerLimit upperLimit valueToConstrain : F) : F :=
  if (valueToConstrain <? lowerLimit)%F then lowerLimit
  else if (upperLimit <? valueToConstrain)%F then upperLimit
  else valueToConstrain.

Definition jmap (sourceValue sourceRangeMin sourceRangeMax
                 targetRangeMin targetRangeMax : F) : F :=
  (targetRangeMin +
   ((targetRangeMax - targetRangeMin) * (sourceValue - sourceRangeMin))
   / (sourceRangeMax - sourceRangeMin))%F.

Definition jmax (a b : F) : F := if (a <? b)%F then b else a.

Definition defaultMinusInfinitydB : F := lit (-100).

Definition gainToDecibels (gain : F) : F :=
  if (gain >? lit 0)%F
  then jmax defaultMinusInfinitydB (log10 gain * lit 20)%F
  else defaultMinusInfinitydB.

Record Point := { x : F; y : F }.

Definition set_y (v : F) (p : Point) : Point := {| x := x p; y := v |}.

End Juce.

Arguments Point F : clear implicits.
End juce.

(** ** WaveformDisplay: trigger and decimation *)

Module WaveformDisplay.

Inductive TriggerType :=
  | kTriggerFree
  | kTriggerRising
  | kTriggerFalling
  | kTriggerInternal.

Definition is_free (t : TriggerType) : bool :=
  match t with kTriggerFree => true | _ => false end.

Definition is_internal (t : TriggerType) : bool :=
  match t with kTriggerInternal => true | _ => false end.

Section Engine.
Context {F : Type} `{Arith F}.

Record Parameters := {
  trigger_speed : F;
  trigger_type : TriggerType;
  trigger_level : F;
  trigger_limit : F;
  time_window : F;
  amp_window : F;
  freeze : bool;
  dc_kill : bool;
  sync_draw : bool
}.

Definition counterSpeed (p : Parameters) : F :=
  pow10 (- time_window p * lit 5 + lit 1.5)%F.

Definition triggerLevel (p : Parameters) : F :=
  (trigger_level p * lit 2 - lit 1)%F.

Definition gain (p : Parameters) : F :=
  pow10 (amp_window p * lit 6 - lit 3)%F.

(** What [process] reads from outside the display: the component's size
  and the sample rate of the storage. *)
Record Env := {
  getWidth : nat;
  getHeight : Z;
  samplerate : F
}.

(** The members that [process] reads and writes.  [index] is a
  [std::size_t] that never exceeds the width; [triggerLimitPhase] is a
  counter of samples, modelled without a word size (the header that
  declares it is not part of the sources). *)
Record State := {
  params_ : Parameters;
  peaks : list (juce.Point F);
  copy : list (juce.Point F);
  index : nat;
  counter : F;
  max : F;
  min : F;
  lastIsMax : bool;
  previousSample : F;
  triggerPhase : F;
  triggerLimitPhase : Z;
  dcKill : F;
  dcFilterTemp : F
}.

(** The locals that [process] computes once, before its loop. *)
Record Locals := {
  l_gain : F;
  l_triggerLevel : F;
  l_triggerLimit : Z;
  l_triggerSpeed : F;
  l_counterSpeed : F;
  l_R : F
}.

Definition locals (e : Env) (p : Parameters) : Locals := {|
  l_gain := gain p;
  l_triggerLevel := triggerLevel p;
  l_triggerLimit := to_int (pow10 (trigger_limit p * lit 4)%F);
  l_triggerSpeed := pow10 (lit 2.5 * trigger_speed p - lit 5)%F;
  l_counterSpeed := counterSpeed p;
  l_R := (lit 1 - lit 250 / samplerate e)%F
|}.

(** *** The stages of one loop iteration *)

(** DC filter. *)
Definition dc_filter (l : Locals) (s : State) (f : F) : State :=
  let dcKill1 := (f - dcFilterTemp s + l_R l * dcKill s)%F in
  let dcKill2 := if (fabs dcKill1 <? lit 1e-10)%F then lit 0 else dcKill1 in
  {| params_ := params_ s; peaks := peaks s; copy := copy s;
     index := index s; counter := counter s; max := max s; min := min s;
     lastIsMax := lastIsMax s; previousSample := previousSample s;
     triggerPhase := triggerPhase s;
     triggerLimitPhase := triggerLimitPhase s;
     dcKill := dcKill2; dcFilterTemp := f |}.

(** Gain: the sample the rest of the iteration works with. *)
Definition gained (l : Locals) (s : State) (f : F) : F :=
  let sample := if dc_kill (params_ s) then dcKill s else f in
  juce.jlimit (lit (-1)) (lit 1) (sample * l_gain l)%F.

Definition set_triggerPhase (v : F) (s : State) : State :=
  {| params_ := params_ s; peaks := peaks s; copy := copy s;
     index := index s; counter := counter s; max := max s; min := min s;
     lastIsMax := lastIsMax s; previousSample := previousSample s;
     triggerPhase := v;
     triggerLimitPhase := triggerLimitPhase s;
     dcKill := dcKill s; dcFilterTemp := dcFilterTemp s |}.

(** Triggers: the [switch] over the trigger type.  The enumeration has
  the four values below, so the aborting [default] branch has no
  counterpart. *)
Definition fire (e : Env) (l : Locals) (s : State) (sample : F)
  : State * bool :=
  match trigger_type (params_ s) with
  | kTriggerInternal =>
      let phase := (triggerPhase s + l_triggerSpeed l)%F in
      if (phase >=? lit 1)%F
      then (set_triggerPhase (phase - lit 1)%F s, true)
      else (set_triggerPhase phase s, false)
  | kTriggerRising =>
      (s, (sample >=? l_triggerLevel l)%F
          && (previousSample s <? l_triggerLevel l)%F)
  | kTriggerFalling =>
      (s, (sample <=? l_triggerLevel l)%F
          && (previousSample s >? l_triggerLevel l)%F)
  | kTriggerFree =>
      (s, getWidth e <=? index s)
  end.

Definition set_triggerLimitPhase (v : Z) (s : State) : State :=
  {| params_ := params_ s; peaks := peaks s; copy := copy s;
     index := index s; counter := counter s; max := max s; min := min s;
     lastIsMax := lastIsMax s; previousSample := previousSample s;
     triggerPhase := triggerPhase s;
     triggerLimitPhase := v;
     dcKill := dcKill s; dcFilterTemp := dcFilterTemp s |}.

(** The retrigger lockout: "if there's a retrigger, but too fast, kill
  it". *)
Definition lockout (l : Locals) (s : State) (trigger : bool)
  : State * bool :=
  let s1 := set_triggerLimitPhase (triggerLimitPhase s + 1)%Z s in
  (s1,
   if trigger && (triggerLimitPhase s1 <? l_triggerLimit l)%Z
      && negb (is_free (trigger_type (params_ s)))
      && negb (is_internal (trigger_type (params_ s)))
   then false else trigger).

(** The y value of the centre line. *)
Definition centerline (e : Env) : F :=
  juce.jmap (of_int 0) (of_int (-1)) (of_int 1)
            (of_int (getHeight e)) (of_int 0).

(** "zero peaks after the last one": columns [idx .. width-1], two
  points each, the second point first as in the chained assignment.
  A store outside the vector is undefined in the source; [alter]
  leaves the list alone there. *)
Definition zero_peaks (e : Env) (idx : nat) (pts : list (juce.Point F))
  : list (juce.Point F) :=
  foldl (fun pts k =>
           alter (juce.set_y (centerline e)) (2 * k)
             (alter (juce.set_y (centerline e)) (2 * k + 1) pts))
        pts (seq idx (getWidth e - idx)).

(** "copy to a buffer for sync drawing": only the y values move. *)
Definition copy_peaks (e : Env) (pks cpy : list (juce.Point F))
  : list (juce.Point F) :=
  foldl (fun cpy j =>
           match pks !! j with
           | Some p => alter (juce.set_y (juce.y p)) j cpy
           | None => cpy
           end)
        cpy (seq 0 (getWidth e * 2)).

(** The body of [if (trigger)]. *)
Definition on_trigger (e : Env) (s : State) : State :=
  let peaks1 := zero_peaks e (index s) (peaks s) in
  let copy1 := copy_peaks e peaks1 (copy s) in
  {| params_ := params_ s; peaks := peaks1; copy := copy1;
     index := 0; counter := lit 1; max := flt_lowest; min := flt_max;
     lastIsMax := lastIsMax s; previousSample := previousSample s;
     triggerPhase := triggerPhase s;
     triggerLimitPhase := 0;
     dcKill := dcKill s; dcFilterTemp := dcFilterTemp s |}.

(** "@ sample": the running extrema of the current column. *)
Definition track_extrema (s : State) (sample : F) : State :=
  let above := (sample >? max s)%F in
  let below := (sample <? min s)%F in
  {| params_ := params_ s; peaks := peaks s; copy := copy s;
     index := index s; counter := counter s;
     max := if above then sample else max s;
     min := if below then sample else min s;
     lastIsMax := if below then false
                  else if above then true else lastIsMax s;
     previousSample := previousSample s;
     triggerPhase := triggerPhase s;
     triggerLimitPhase := triggerLimitPhase s;
     dcKill := dcKill s; dcFilterTemp := dcFilterTemp s |}.

(** The two points of column [index], scaled to the component's height. *)
Definition write_column (e : Env) (s : State) : list (juce.Point F) :=
  let max_Y := juce.jmap (max s) (of_int (-1)) (of_int 1)
                         (of_int (getHeight e)) (of_int 0) in
  let min_Y := juce.jmap (min s) (of_int (-1)) (of_int 1)
                         (of_int (getHeight e)) (of_int 0) in
  alter (juce.set_y (if lastIsMax s then max_Y else min_Y))
        (index s * 2 + 1)
    (alter (juce.set_y (if lastIsMax s then min_Y else max_Y))
           (index s * 2) (peaks s)).

(** "@ counter": the counter advances and, at one or more, a column is
  closed.  The boolean says whether a column was written. *)
Definition pixel_boundary (e : Env) (l : Locals) (s : State)
  : State * bool :=
  let counter1 := (counter s + l_counterSpeed l)%F in
  if (counter1 >=? lit 1)%F then
    let '(peaks1, index1, wrote) :=
      if index s <? getWidth e
      then (write_column e s, S (index s), true)
      else (peaks s, index s, false) in
    ({| params_ := params_ s; peaks := peaks1; copy := copy s;
        index := index1; counter := (counter1 - lit 1)%F;
        max := flt_lowest; min := flt_max;
        lastIsMax := lastIsMax s; previousSample := previousSample s;
        triggerPhase := triggerPhase s;
        triggerLimitPhase := triggerLimitPhase s;
        dcKill := dcKill s; dcFilterTemp := dcFilterTemp s |}, wrote)
  else
    ({| params_ := params_ s; peaks := peaks s; copy := copy s;
        index := index s; counter := counter1;
        max := max s; min := min s;
        lastIsMax := lastIsMax s; previousSample := previousSample s;
        triggerPhase := triggerPhase s;
        triggerLimitPhase := triggerLimitPhase s;
        dcKill := dcKill s; dcFilterTemp := dcFilterTemp s |}, false).

(** "store for edge-triggers". *)
Definition set_previousSample (v : F) (s : State) : State :=
  {| params_ := params_ s; peaks := peaks s; copy := copy s;
     index := index s; counter := counter s; max := max s; min := min s;
     lastIsMax := lastIsMax s; previousSample := v;
     triggerPhase := triggerPhase s;
     triggerLimitPhase := triggerLimitPhase s;
     dcKill := dcKill s; dcFilterTemp := dcFilterTemp s |}.

(** What one iteration decided, kept beside the state so that theorems
  can speak about it: the gained sample, the sample before it, the
  trigger before and after the lockout, and whether a column was
  written. *)
Record Event := {
  ev_sample : F;
  ev_previous : F;
  ev_fired : bool;
  ev_trigger : bool;
  ev_wrote : bool
}.

(** One iteration of the loop over [data], in three parts: up to the
  lockout, the body of [if (trigger)], and the rest. *)
Definition until_lockout (e : Env) (l : Locals) (s : State) (f : F)
  : State * F * bool * bool :=
  let s1 := dc_filter l s f in
  let sample := gained l s1 f in
  let '(s2, fired) := fire e l s1 sample in
  let '(s3, trigger) := lockout l s2 fired in
  (s3, sample, fired, trigger).

Definition after_trigger (e : Env) (l : Locals) (s : State) (sample : F)
  : State * bool :=
  let s5 := track_extrema s sample in
  let '(s6, wrote) := pixel_boundary e l s5 in
  (set_previousSample sample s6, wrote).

Definition sample_step (e : Env) (l : Locals) (s : State) (f : F)
  : State * Event :=
  let '(s3, sample, fired, trigger) := until_lockout e l s f in
  let s4 := if trigger then on_trigger e s3 else s3 in
  let '(s7, wrote) := after_trigger e l s4 sample in
  (s7,
   {| ev_sample := sample; ev_previous := previousSample s;
      ev_fired := fired; ev_trigger := trigger; ev_wrote := wrote |}).

(** The loop, with the events of its iterations in order. *)
Fixpoint process_loop (e : Env) (l : Locals) (s : State) (data : list F)
  : State * list Event :=
  match data with
  | [] => (s, [])
  | f :: data' =>
      let '(s1, ev) := sample_step e l s f in
      let '(s2, evs) := process_loop e l s1 data' in
      (s2, ev :: evs)
  end.

(** [WaveformDisplay::process]. *)
Definition process_events (e : Env) (s : State) (data : list F)
  : State * list Event :=
  if freeze (params_ s) then (s, [])
  else process_loop e (locals e (params_ s)) s data.

Definition process (e : Env) (s : State) (data : list F) : State :=
  fst (process_events e s data).


(** [WaveformDisplay::resized]: both buffers are rebuilt with two points
  per column on the centre line.  Nothing else is reset. *)
Definition flat_line (e : Env) : list (juce.Point F) :=
  flat_map (fun k => let point := {| juce.x := of_int (Z.of_nat k);
                                     juce.y := centerline e |} in
                     [point; point])
           (seq 0 (getWidth e)).

Definition resized (e : Env) (s : State) : State :=
  {| params_ := params_ s; peaks := flat_line e; copy := flat_line e;
     index := index s; counter := counter s; max := max s; min := min s;
     lastIsMax := lastIsMax s; previousSample := previousSample s;
     triggerPhase := triggerPhase s;
     triggerLimitPhase := triggerLimitPhase s;
     dcKill := dcKill s; dcFilterTemp := dcFilterTemp s |}.

End Engine.

Arguments Parameters F : clear implicits.
Arguments State F : clear implicits.
Arguments Env F : clear implicits.
Arguments Locals F : clear implicits.
Arguments Event F : clear implicits.

End WaveformDisplay.

(** ** SpectrumDisplay: the published spectrum *)

Module SpectrumDisplay.
Section Display.
  Context {F : Type} `{Arith F}.

Record Parameters := {
  noise_floor : F;
  max_db : F;
  freeze : bool
}.

Definition noiseFloor (p : Parameters) : F := ((noise_floor p - lit 2) * lit 50)%F.

Definition maxDb (p : Parameters) : F := ((max_db p - lit 1) * lit 50)%F.

Definition dbRange (p : Parameters) : F :=
  juce.jmax (maxDb p - noiseFloor p)%F (lit 0).

(** The class constants [lowFreq], [highFreq], [dbMin] and [dbMax].
  Their values are fixed in the header, which is not part of the
  sources, so they are taken as given. *)
Record Constants := {
  lowFreq : F;
  highFreq : F;
  dbMin : F;
  dbMax : F
}.

(** [std::move(first, last, d_first)] into an array: one store per
  element, at increasing positions.  A store outside the array is
  undefined in the source and is dropped here; [move_indices] lists the
  positions that are stored to, so that their bounds can be stated. *)
Definition store (i : Z) (v : F) (a : list F) : list F :=
  if (0 <=? i)%Z then <[Z.to_nat i := v]> a else a.

Fixpoint move_range (src : list F) (d_first : Z) (dst : list F) : list F :=
  match src with
  | [] => dst
  | v :: src' => move_range src' (d_first + 1)%Z (store d_first v dst)
  end.

Definition move_indices (n : nat) (d_first : Z) : list Z :=
  map (fun k => (d_first + Z.of_nat k)%Z) (seq 0 n).

(** [SpectrumDisplay::updateScopeData]; the time stamp it takes is not
  modelled. *)
Definition updateScopeData (data : list F) (new_scope_data_ : list F)
  : list F :=
  move_range data 0 new_scope_data_.

End Display.

Arguments Parameters F : clear implicits.
Arguments Constants F : clear implicits.

End SpectrumDisplay.

(** ** Oscilloscope: the accumulator, the FFT pass and the parameter stores *)

(** The two JUCE DSP calls of [calculateSpectrumData], taken as given:
  [WindowingFunction::multiplyWithWindowingTable (data, size)] with the
  Hann table, and [FFT::performFrequencyOnlyForwardTransform (data)]. *)
Class Dsp (F : Type) := {
  multiplyWithWindowingTable : list F -> Z -> list F;
  performFrequencyOnlyForwardTransform : list F -> list F
}.

(** Both calls work in place on the array they are given, so the array
  keeps its length. *)
Class DspInPlace (F : Type) `{Dsp F} := {
  window_length : forall (a : list F) (n : Z),
  length (multiplyWithWindowingTable a n) = length a;
  transform_length : forall a : list F,
  length (performFrequencyOnlyForwardTransform a) = length a
}.

Module Oscilloscope.

Inductive ChannelSelect := LEFT | RIGHT | STEREO | OFF.

Inductive ScopeMode := WAVEFORM | SPECTRUM.

(** A parameter panel: the value struct and its flag, both behind
  [params_lock_]. *)
Record ParamStore (P : Type) := {
  params_ : P;
  params_changed_ : bool
}.
Arguments params_ {P} _.
Arguments params_changed_ {P} _.

(** [WaveformParameters::getParamsIfDirty] and
  [SpectrumParameters::getParamsIfDirty] have the same body; the result
  is paired with the store the call leaves behind. *)
Definition getParamsIfDirty {P : Type} (s : ParamStore P)
  : option P * ParamStore P :=
  if params_changed_ s
  then (Some (params_ s),
        {| params_ := params_ s; params_changed_ := false |})
  else (None, s).

(** [n] calls in a row, with what each returned. *)
Fixpoint poll {P : Type} (n : nat) (s : ParamStore P)
  : list (option P) * ParamStore P :=
  match n with
  | O => ([], s)
  | S n' =>
      let '(r, s1) := getParamsIfDirty s in
      let '(rs, s2) := poll n' s1 in
      (r :: rs, s2)
  end.

Section Stores.
  Context {F : Type} `{Arith F}.

(** The callbacks that the controls of the waveform panel install:
  [updateParameter] bound to a field, [updateAmpWindow], the trigger
  switch (for a value below [kNumTriggerTypes]) and [toggleParam] bound
  to a field. *)
Inductive WaveformEdit :=
  | SetTriggerSpeed (value : F)
  | SetTriggerLevel (value : F)
  | SetTriggerLimit (value : F)
  | SetTimeWindow (value : F)
  | SetAmpWindow (value : F)
  | SetTriggerType (value : WaveformDisplay.TriggerType)
  | ToggleFreeze
  | ToggleDcKill
  | ToggleSyncDraw.

Definition edit_waveform (ed : WaveformEdit) (p : WaveformDisplay.Parameters F)
  : WaveformDisplay.Parameters F :=
  match ed with
  | SetTriggerSpeed v =>
      {| WaveformDisplay.trigger_speed := v;
         WaveformDisplay.trigger_type := WaveformDisplay.trigger_type p;
         WaveformDisplay.trigger_level := WaveformDisplay.trigger_level p;
         WaveformDisplay.trigger_limit := WaveformDisplay.trigger_limit p;
         WaveformDisplay.time_window := WaveformDisplay.time_window p;
         WaveformDisplay.amp_window := WaveformDisplay.amp_window p;
         WaveformDisplay.freeze := WaveformDisplay.freeze p;
         WaveformDisplay.dc_kill := WaveformDisplay.dc_kill p;
         WaveformDisplay.sync_draw := WaveformDisplay.sync_draw p |}
  | SetTriggerLevel v =>
      {| WaveformDisplay.trigger_speed := WaveformDisplay.trigger_speed p;
         WaveformDisplay.trigger_type := WaveformDisplay.trigger_type p;
         WaveformDisplay.trigger_level := v;
         WaveformDisplay.trigger_limit := WaveformDisplay.trigger_limit p;
         WaveformDisplay.time_window := WaveformDisplay.time_window p;
         WaveformDisplay.amp_window := WaveformDisplay.amp_window p;
         WaveformDisplay.freeze := WaveformDisplay.freeze p;
         WaveformDisplay.dc_kill := WaveformDisplay.dc_kill p;
         WaveformDisplay.sync_draw := WaveformDisplay.sync_draw p |}
  | SetTriggerLimit v =>
      {| WaveformDisplay.trigger_speed := WaveformDisplay.trigger_speed p;
         WaveformDisplay.trigger_type := WaveformDisplay.trigger_type p;
         WaveformDisplay.trigger_level := WaveformDisplay.trigger_level p;
         WaveformDisplay.trigger_limit := v;
         WaveformDisplay.time_window := WaveformDisplay.time_window p;
         WaveformDisplay.amp_window := WaveformDisplay.amp_window p;
         WaveformDisplay.freeze := WaveformDisplay.freeze p;
         WaveformDisplay.dc_kill := WaveformDisplay.dc_kill p;
         WaveformDisplay.sync_draw := WaveformDisplay.sync_draw p |}
  | SetTimeWindow v =>
      {| WaveformDisplay.trigger_speed := WaveformDisplay.trigger_speed p;
         WaveformDisplay.trigger_type := WaveformDisplay.trigger_type p;
         WaveformDisplay.trigger_level := WaveformDisplay.trigger_level p;
         WaveformDisplay.trigger_limit := WaveformDisplay.trigger_limit p;
         WaveformDisplay.time_window := v;
         WaveformDisplay.amp_window := WaveformDisplay.amp_window p;
         WaveformDisplay.freeze := WaveformDisplay.freeze p;
         WaveformDisplay.dc_kill := WaveformDisplay.dc_kill p;
         WaveformDisplay.sync_draw := WaveformDisplay.sync_draw p |}
  | SetAmpWindow v =>
      {| WaveformDisplay.trigger_speed := WaveformDisplay.trigger_speed p;
         WaveformDisplay.trigger_type := WaveformDisplay.trigger_type p;
         WaveformDisplay.trigger_level := WaveformDisplay.trigger_level p;
         WaveformDisplay.trigger_limit := WaveformDisplay.trigger_limit p;
         WaveformDisplay.time_window := WaveformDisplay.time_window p;
         WaveformDisplay.amp_window := v;
         WaveformDisplay.freeze := WaveformDisplay.freeze p;
         WaveformDisplay.dc_kill := WaveformDisplay.dc_kill p;
         WaveformDisplay.sync_draw := WaveformDisplay.sync_draw p |}
  | SetTriggerType v =>
      {| WaveformDisplay.trigger_speed := WaveformDisplay.trigger_speed p;
         WaveformDisplay.trigger_type := v;
         WaveformDisplay.trigger_level := WaveformDisplay.trigger_level p;
         WaveformDisplay.trigger_limit := WaveformDisplay.trigger_limit p;
         WaveformDisplay.time_window := WaveformDisplay.time_window p;
         WaveformDisplay.amp_window := WaveformDisplay.amp_window p;
         WaveformDisplay.freeze := WaveformDisplay.freeze p;
         WaveformDisplay.dc_kill := WaveformDisplay.dc_kill p;
         WaveformDisplay.sync_draw := WaveformDisplay.sync_draw p |}
  | ToggleFreeze =>
      {| WaveformDisplay.trigger_speed := WaveformDisplay.trigger_speed p;
         WaveformDisplay.trigger_type := WaveformDisplay.trigger_type p;
         WaveformDisplay.trigger_level := WaveformDisplay.trigger_level p;
         WaveformDisplay.trigger_limit := WaveformDisplay.trigger_limit p;
         WaveformDisplay.time_window := WaveformDisplay.time_window p;
         WaveformDisplay.amp_window := WaveformDisplay.amp_window p;
         WaveformDisplay.freeze := negb (WaveformDisplay.freeze p);
         WaveformDisplay.dc_kill := WaveformDisplay.dc_kill p;
         WaveformDisplay.sync_draw := WaveformDisplay.sync_draw p |}
  | ToggleDcKill =>
      {| WaveformDisplay.trigger_speed := WaveformDisplay.trigger_speed p;
         WaveformDisplay.trigger_type := WaveformDisplay.trigger_type p;
         WaveformDisplay.trigger_level := WaveformDisplay.trigger_level p;
         WaveformDisplay.trigger_limit := WaveformDisplay.trigger_limit p;
         WaveformDisplay.time_window := WaveformDisplay.time_window p;
         WaveformDisplay.amp_window := WaveformDisplay.amp_window p;
         WaveformDisplay.freeze := WaveformDisplay.freeze p;
         WaveformDisplay.dc_kill := negb (WaveformDisplay.dc_kill p);
         WaveformDisplay.sync_draw := WaveformDisplay.sync_draw p |}
  | ToggleSyncDraw =>
      {| WaveformDisplay.trigger_speed := WaveformDisplay.trigger_speed p;
         WaveformDisplay.trigger_type := WaveformDisplay.trigger_type p;
         WaveformDisplay.trigger_level := WaveformDisplay.trigger_level p;
         WaveformDisplay.trigger_limit := WaveformDisplay.trigger_limit p;
         WaveformDisplay.time_window := WaveformDisplay.time_window p;
         WaveformDisplay.amp_window := WaveformDisplay.amp_window p;
         WaveformDisplay.freeze := WaveformDisplay.freeze p;
         WaveformDisplay.dc_kill := WaveformDisplay.dc_kill p;
         WaveformDisplay.sync_draw := negb (WaveformDisplay.sync_draw p) |}
  end.

Definition onWaveformEdit (ed : WaveformEdit)
  (s : ParamStore (WaveformDisplay.Parameters F))
  : ParamStore (WaveformDisplay.Parameters F) :=
  {| params_ := edit_waveform ed (params_ s); params_changed_ := true |}.

(** The callbacks of the spectrum panel: [updateParameter] bound to
  [noise_floor] and to [max_db]. *)
Inductive SpectrumEdit :=
  | SetNoiseFloor (value : F)
  | SetMaxDb (value : F).

Definition edit_spectrum (ed : SpectrumEdit) (p : SpectrumDisplay.Parameters F)
  : SpectrumDisplay.Parameters F :=
  match ed with
  | SetNoiseFloor v =>
      {| SpectrumDisplay.noise_floor := v;
         SpectrumDisplay.max_db := SpectrumDisplay.max_db p;
         SpectrumDisplay.freeze := SpectrumDisplay.freeze p |}
  | SetMaxDb v =>
      {| SpectrumDisplay.noise_floor := SpectrumDisplay.noise_floor p;
         SpectrumDisplay.max_db := v;
         SpectrumDisplay.freeze := SpectrumDisplay.freeze p |}
  end.

Definition onSpectrumEdit (ed : SpectrumEdit)
  (s : ParamStore (SpectrumDisplay.Parameters F))
  : ParamStore (SpectrumDisplay.Parameters F) :=
  {| params_ := edit_spectrum ed (params_ s); params_changed_ := true |}.

End Stores.

Section Spectrum.
  Context {F : Type} `{Arith F} `{Dsp F}.

(** What the spectrum path reads from outside: [internal::fftSize] (from
  the missing header), the constants of the display and the sample
  rate of the storage. *)
Record Config := {
  fftSize : Z;
  constants : SpectrumDisplay.Constants F;
  samplerate : F
}.

(** The members of the spectrum path.  [new_scope_data_] belongs to the
  spectrum display and holds what was last published. *)
Record State := {
  fft_data_ : list F;
  pos_ : Z;
  scope_data_ : list F;
  new_scope_data_ : list F
}.

(** The value [calculateSpectrumData] gives to bin [i], from the
  magnitudes [mag]. *)
Definition bin_value (c : Config) (mag : list F) (i : nat) : F :=
  let binHz := (samplerate c / of_int (fftSize c))%F in
  let hz := (binHz * of_int (Z.of_nat i))%F in
  if (hz <? SpectrumDisplay.lowFreq (constants c))%F
     || (hz >? SpectrumDisplay.highFreq (constants c))%F
  then SpectrumDisplay.dbMin (constants c)
  else juce.jlimit (SpectrumDisplay.dbMin (constants c))
                   (SpectrumDisplay.dbMax (constants c))
                   (juce.gainToDecibels (nth i mag (lit 0))
                    - juce.gainToDecibels (of_int (fftSize c)))%F.

(** [Oscilloscope::calculateSpectrumData]: window and transform in place,
  then one store per bin below [fftSize / 2]. *)
Definition calculateSpectrumData (c : Config) (s : State) : State :=
  let mag :=
    performFrequencyOnlyForwardTransform
      (multiplyWithWindowingTable (fft_data_ s) (fftSize c)) in
  {| fft_data_ := mag;
     pos_ := pos_ s;
     scope_data_ :=
       foldl (fun scope i => <[i := bin_value c mag i]> scope)
             (scope_data_ s) (seq 0 (Z.to_nat (fftSize c ÷ 2)));
     new_scope_data_ := new_scope_data_ s |}.

(** What the spectrum branch of [pullData] did with one block: the state
  it leaves, the number of FFT passes it ran, and the positions of
  [fft_data_] it stored to, in order. *)
Record Outcome := {
  state : State;
  passes : nat;
  stored : list Z
}.

(** The [else] branch of [if (scope_mode_ == WAVEFORM)] in [pullData]. *)
Definition pullData_spectrum (c : Config) (s : State) (dataL : list F) : Outcome :=
  let sz := Z.of_nat (length dataL) in
  if (fftSize c <=? pos_ s + sz)%Z then
    let mv := (fftSize c - pos_ s)%Z in
    let leftovers := (sz - mv)%Z in
    let head := take (Z.to_nat mv) dataL in
    let tail := drop (Z.to_nat mv) dataL in
    let s1 := {| fft_data_ :=
                   SpectrumDisplay.move_range head (pos_ s) (fft_data_ s);
                 pos_ := pos_ s;
                 scope_data_ := scope_data_ s;
                 new_scope_data_ := new_scope_data_ s |} in
    let s2 := calculateSpectrumData c s1 in
    let published :=
      SpectrumDisplay.updateScopeData (scope_data_ s2) (new_scope_data_ s2) in
    {| state := {| fft_data_ :=
                     SpectrumDisplay.move_range tail 0 (fft_data_ s2);
                   pos_ := leftovers;
                   scope_data_ := scope_data_ s2;
                   new_scope_data_ := published |};
       passes := 1;
       stored := SpectrumDisplay.move_indices (length head) (pos_ s)
                 ++ SpectrumDisplay.move_indices (length tail) 0 |}
  else
    {| state := {| fft_data_ :=
                     SpectrumDisplay.move_range dataL (pos_ s) (fft_data_ s);
                   pos_ := (pos_ s + sz)%Z;
                   scope_data_ := scope_data_ s;
                   new_scope_data_ := new_scope_data_ s |};
       passes := 0;
       stored := SpectrumDisplay.move_indices (length dataL) (pos_ s) |}.

(** The channel mix of [pullData]: "We'll use dataL as our storage
  regardless of the channel choice". *)
Definition mix (cs : ChannelSelect) (dataL dataR : list F) : list F :=
  match cs with
  | STEREO => zip_with (fun x y => ((x + y) / lit 2)%F) dataL dataR
  | RIGHT => dataR
  | _ => dataL
  end.

End Spectrum.

Arguments Config F : clear implicits.
Arguments State F : clear implicits.
Arguments Outcome F : clear implicits.
Arguments WaveformEdit F : clear implicits.
Arguments SpectrumEdit F : clear implicits.

End Oscilloscope.

(** ** Concrete configurations over the rationals *)

Module Examples.
Import ExactQ.
Local Open Scope Q_scope.

(** Dial positions at which every derived value is exact: a gain of 1, a
  trigger level of 0, a retrigger limit of 10 samples and, for a time
  dial of 0.3, one sample per column. *)
Definition ex_params (ty : WaveformDisplay.TriggerType) (time : Q)
  (frozen : bool) : WaveformDisplay.Parameters Q :=
  {| WaveformDisplay.trigger_speed := 0.5;
   WaveformDisplay.trigger_type := ty;
   WaveformDisplay.trigger_level := 0.5;
   WaveformDisplay.trigger_limit := 0.25;
   WaveformDisplay.time_window := time;
   WaveformDisplay.amp_window := 0.5;
   WaveformDisplay.freeze := frozen;
   WaveformDisplay.dc_kill := true;
   WaveformDisplay.sync_draw := false |}.

(** A display three columns wide and a hundred pixels high, at 48 kHz. *)
Definition ex_env : WaveformDisplay.Env Q :=
  {| WaveformDisplay.getWidth := 3%nat;
   WaveformDisplay.getHeight := 100%Z;
   WaveformDisplay.samplerate := 48000 |}.

(** The display as its constructor and the first [resized] leave it: the
  counter at 1.0, both extrema at [numeric_limits<float>::min()], the
  other members taken as zero, and the write index as given. *)
Definition ex_state (ty : WaveformDisplay.TriggerType) (time : Q)
  (frozen : bool) (idx : nat) : WaveformDisplay.State Q :=
  WaveformDisplay.resized ex_env
  {| WaveformDisplay.params_ := ex_params ty time frozen;
     WaveformDisplay.peaks := [];
     WaveformDisplay.copy := [];
     WaveformDisplay.index := idx;
     WaveformDisplay.counter := 1;
     WaveformDisplay.max := flt_min;
     WaveformDisplay.min := flt_min;
     WaveformDisplay.lastIsMax := false;
     WaveformDisplay.previousSample := 0;
     WaveformDisplay.triggerPhase := 0;
     WaveformDisplay.triggerLimitPhase := 0%Z;
     WaveformDisplay.dcKill := 0;
     WaveformDisplay.dcFilterTemp := 0 |}.

Definition ex_rising : WaveformDisplay.State Q :=
  ex_state WaveformDisplay.kTriggerRising 0.3 false 0.

Definition ex_free : WaveformDisplay.State Q :=
  ex_state WaveformDisplay.kTriggerFree 0.3 false 0.

(** A Free display whose buffer is full. *)
Definition ex_full : WaveformDisplay.State Q :=
  ex_state WaveformDisplay.kTriggerFree 0.3 false 3.

Definition ex_frozen : WaveformDisplay.State Q :=
  ex_state WaveformDisplay.kTriggerRising 0.3 true 0.


Definition ex_locals : WaveformDisplay.Locals Q :=
  WaveformDisplay.locals ex_env (WaveformDisplay.params_ ex_full).

Definition ex_block : list Q := [0.1; 0.2; -0.3; 0.4; -0.5; 0.6; 0.7]%Q.

(** The spec's reading of the counter update at a pixel boundary: the
  integer part goes and the fractional remainder stays. *)
Definition fractional_remainder (c : Q) : Q := c - inject_Z (Qfloor c).

(** A stand-in for the two DSP calls, for running the spectrum path on
  small arrays: a window of ones and the magnitude of each entry. *)
Definition ex_dsp : Dsp Q :=
  {| multiplyWithWindowingTable := fun a _ => a;
   performFrequencyOnlyForwardTransform := map Qabs |}.

(** An FFT of eight points, the band from 10 Hz to 24 kHz and the range
  from -100 dB to 0 dB. *)
Definition ex_config : Oscilloscope.Config Q :=
  {| Oscilloscope.fftSize := 8%Z;
   Oscilloscope.constants :=
     {| SpectrumDisplay.lowFreq := 10;
        SpectrumDisplay.highFreq := 24000;
        SpectrumDisplay.dbMin := -100;
        SpectrumDisplay.dbMax := 0 |};
   Oscilloscope.samplerate := 48000 |}.

Definition ex_spectrum (pos : Z) : Oscilloscope.State Q :=
  {| Oscilloscope.fft_data_ := replicate 16%nat 0;
   Oscilloscope.pos_ := pos;
   Oscilloscope.scope_data_ := replicate 4%nat (-100);
   Oscilloscope.new_scope_data_ := replicate 4%nat (-100) |}.

Definition ex_samples : list Q := [1; 2; 3; 4; 5].

Definition ex_store : Oscilloscope.ParamStore (WaveformDisplay.Parameters Q) :=
  {| Oscilloscope.params_ := ex_params WaveformDisplay.kTriggerFree 0.3 false;
   Oscilloscope.params_changed_ := true |}.

End Examples.

(** ** The rest of the two displays *)

Module WaveformDisplayOps.
Import WaveformDisplay.
Section Ops.
Context {F : Type} `{Arith F}.

(** [WaveformDisplay::setParameters]. *)
Definition setParameters (parameters : Parameters F) (s : State F) : State F :=
  {| params_ := parameters; peaks := peaks s; copy := copy s;
     index := index s; counter := counter s; max := max s; min := min s;
     lastIsMax := lastIsMax s; previousSample := previousSample s;
     triggerPhase := triggerPhase s;
     triggerLimitPhase := triggerLimitPhase s;
     dcKill := dcKill s; dcFilterTemp := dcFilterTemp s |}.

(** For a property [Py] of y values and a property [Pm] of samples: the
    buffers hold y values with [Py] and each running extremum has [Pm] or
    is freshly reset. *)
Definition ys_ok (Py Pm : F -> Prop) (s : State F) : Prop :=
  Forall (fun p => Py (juce.y p)) (peaks s)
  /\ Forall (fun p => Py (juce.y p)) (copy s)
  /\ (Pm (max s) \/ max s = flt_lowest)
  /\ (Pm (min s) \/ min s = flt_max).

(** A sample that the running extrema take up: it has [Pm], and it
    compares above [lowest()] and below [max()], which every number
    between -1 and 1 does and a NaN does not. *)
Definition takes_part (Pm : F -> Prop) (x : F) : Prop :=
  Pm x /\ (x >? flt_lowest)%F = true /\ (x <? flt_max)%F = true.

(** The number of accepted triggers in a run of iterations. *)
Fixpoint triggers_accepted (evs : list (Event F)) : nat :=
  match evs with
  | [] => 0
  | ev :: evs' => (if ev_trigger ev then 1 else 0) + triggers_accepted evs'
  end.




End Ops.
End WaveformDisplayOps.

Module SpectrumDisplayOps.
Import SpectrumDisplay.
Section Ops.
Context {F : Type} `{Arith F}.

(** [dbToY]; the class constant [dbRange] comes from the header and is
    taken as given, like the other constants. *)
Definition dbToY (k : Constants F) (dbRange : F) (db : F) (height : Z) : F :=
  (of_int height * (dbMax k - db) / dbRange)%F.

(** [SpectrumDisplay::interpolate], with the time points as seconds. *)
Definition interpolate (last_updated_time_ mtbs_ : F) (y0 y1 t : F) : F :=
  let distance := (t - last_updated_time_)%F in
  let mu := juce.jlimit (lit 0) (lit 1) (distance / mtbs_)%F in
  (y0 * (of_int 1 - mu) + y1 * mu)%F.

(** What [SpectrumDisplay::paint] does to [displayed_data_]: every bin in
    the band moves towards the scaled value last published; the bins
    outside are skipped.  The path it draws is not modelled. *)
Definition paint_bin (k : Constants F) (dbRange : F) (height : Z)
    (samplerate : F) (fftSize : Z) (last_updated_time_ now : F)
    (new_scope_data_ : list F) (displayed_data_ : list F) (i : nat)
  : list F :=
  let binHz := (samplerate / of_int fftSize)%F in
  let mtbs_ := (lit 1 / binHz)%F in
  let hz := (binHz * of_int (Z.of_nat i))%F in
  if (hz <? lowFreq k)%F || (hz >? highFreq k)%F then displayed_data_
  else
    match displayed_data_ !! i, new_scope_data_ !! i with
    | Some y0, Some v =>
        <[i := interpolate last_updated_time_ mtbs_ y0
                 (dbToY k dbRange v height) now]> displayed_data_
    | _, _ => displayed_data_
    end.

Definition paint_displayed (k : Constants F) (dbRange : F) (height : Z)
    (samplerate : F) (fftSize : Z) (last_updated_time_ now : F)
    (new_scope_data_ : list F) (displayed_data_ : list F) : list F :=
  foldl (paint_bin k dbRange height samplerate fftSize
                   last_updated_time_ now new_scope_data_)
        displayed_data_ (seq 0 (Z.to_nat (fftSize ÷ 2))).

(** The test that makes [paint] skip bin [i]. *)
Definition out_of_band (k : Constants F) (samplerate : F) (fftSize : Z)
    (i : nat) : bool :=
  let hz := (samplerate / of_int fftSize * of_int (Z.of_nat i))%F in
  (hz <? lowFreq k)%F || (hz >? highFreq k)%F.

(** A value in the range that the source comment of [updateScopeData]
    gives for the published data: "from dbMin to dbMax". *)
Definition in_range (k : Constants F) (v : F) : Prop :=
  (dbMin k <=? v)%F = true /\ (v <=? dbMax k)%F = true.

End Ops.
End SpectrumDisplayOps.

(** ** The scope as a whole: redraw ticks, mode changes and the data loop *)

Module OscilloscopeOps.
Import Oscilloscope.
Section Ops.
Context {F : Type} `{Arith F} `{!Dsp F}.

(** The members of [Oscilloscope] that the modelled functions touch, with
    the two parameter structs of the background. *)
Record Scope := {
  channel_selection_ : ChannelSelect;
  scope_mode_ : ScopeMode;
  waveform_ : WaveformDisplay.State F;
  waveform_parameters_ : ParamStore (WaveformDisplay.Parameters F);
  spectrum_params_ : SpectrumDisplay.Parameters F;
  spectrum_parameters_ : ParamStore (SpectrumDisplay.Parameters F);
  background_waveform_params_ : WaveformDisplay.Parameters F;
  background_spectrum_params_ : SpectrumDisplay.Parameters F;
  background_mode_ : ScopeMode;
  spectrum_data_ : State F
}.

Definition is_off (cs : ChannelSelect) : bool :=
  match cs with OFF => true | _ => false end.

(** [Oscilloscope::updateDrawing]; the repaint requests are not modelled. *)
Definition updateDrawing (o : Scope) : Scope :=
  if is_off (channel_selection_ o) then o
  else
    match scope_mode_ o with
    | WAVEFORM =>
        match getParamsIfDirty (waveform_parameters_ o) with
        | (Some params, store) =>
            {| channel_selection_ := channel_selection_ o;
               scope_mode_ := scope_mode_ o;
               waveform_ := WaveformDisplayOps.setParameters params (waveform_ o);
               waveform_parameters_ := store;
               spectrum_params_ := spectrum_params_ o;
               spectrum_parameters_ := spectrum_parameters_ o;
               background_waveform_params_ := params;
               background_spectrum_params_ := background_spectrum_params_ o;
               background_mode_ := background_mode_ o;
               spectrum_data_ := spectrum_data_ o |}
        | (None, _) => o
        end
    | SPECTRUM =>
        match getParamsIfDirty (spectrum_parameters_ o) with
        | (Some params, store) =>
            {| channel_selection_ := channel_selection_ o;
               scope_mode_ := scope_mode_ o;
               waveform_ := waveform_ o;
               waveform_parameters_ := waveform_parameters_ o;
               spectrum_params_ := params;
               spectrum_parameters_ := store;
               background_waveform_params_ := background_waveform_params_ o;
               background_spectrum_params_ := params;
               background_mode_ := background_mode_ o;
               spectrum_data_ := spectrum_data_ o |}
        | (None, _) => o
        end
    end.

(** A control of the waveform panel is moved. *)
Definition editWaveform (ed : WaveformEdit F) (o : Scope) : Scope :=
  {| channel_selection_ := channel_selection_ o;
     scope_mode_ := scope_mode_ o;
     waveform_ := waveform_ o;
     waveform_parameters_ := onWaveformEdit ed (waveform_parameters_ o);
     spectrum_params_ := spectrum_params_ o;
     spectrum_parameters_ := spectrum_parameters_ o;
     background_waveform_params_ := background_waveform_params_ o;
     background_spectrum_params_ := background_spectrum_params_ o;
     background_mode_ := background_mode_ o;
     spectrum_data_ := spectrum_data_ o |}.

(** [Oscilloscope::toggleChannel], from the states of the two buttons. *)
Definition channel_of (left right : bool) : ChannelSelect :=
  if left && right then STEREO
  else if left then LEFT
  else if right then RIGHT
  else OFF.

Definition toggleChannel (left right : bool) (o : Scope) : Scope :=
  {| channel_selection_ := channel_of left right;
     scope_mode_ := scope_mode_ o;
     waveform_ := waveform_ o;
     waveform_parameters_ := waveform_parameters_ o;
     spectrum_params_ := spectrum_params_ o;
     spectrum_parameters_ := spectrum_parameters_ o;
     background_waveform_params_ := background_waveform_params_ o;
     background_spectrum_params_ := background_spectrum_params_ o;
     background_mode_ := background_mode_ o;
     spectrum_data_ := spectrum_data_ o |}.

(** The part of one iteration of [Oscilloscope::pullData] that follows
    [popall]: nothing happens to an empty left buffer; otherwise the
    channels are mixed and the block goes to the display of the current
    mode.  With the selection OFF the loop does not get as far as
    [popall]. *)
Definition dispatch (e : WaveformDisplay.Env F) (c : Config F)
    (data : list F * list F) (o : Scope) : Scope :=
  match data.1 with
  | [] => o
  | _ :: _ =>
      if is_off (channel_selection_ o) then o else
      let dataL := mix (channel_selection_ o) data.1 data.2 in
      match scope_mode_ o with
      | WAVEFORM =>
          {| channel_selection_ := channel_selection_ o;
             scope_mode_ := scope_mode_ o;
             waveform_ := WaveformDisplay.process e (waveform_ o) dataL;
             waveform_parameters_ := waveform_parameters_ o;
             spectrum_params_ := spectrum_params_ o;
             spectrum_parameters_ := spectrum_parameters_ o;
             background_waveform_params_ := background_waveform_params_ o;
             background_spectrum_params_ := background_spectrum_params_ o;
             background_mode_ := background_mode_ o;
             spectrum_data_ := spectrum_data_ o |}
      | SPECTRUM =>
          {| channel_selection_ := channel_selection_ o;
             scope_mode_ := scope_mode_ o;
             waveform_ := waveform_ o;
             waveform_parameters_ := waveform_parameters_ o;
             spectrum_params_ := spectrum_params_ o;
             spectrum_parameters_ := spectrum_parameters_ o;
             background_waveform_params_ := background_waveform_params_ o;
             background_spectrum_params_ := background_spectrum_params_ o;
             background_mode_ := background_mode_ o;
             spectrum_data_ :=
               state (pullData_spectrum c (spectrum_data_ o) dataL) |}
      end
  end.

(** The spectrum branch over the blocks of successive iterations, with the
    number of FFT passes that ran. *)
Fixpoint pull_blocks (c : Config F) (s : State F) (blocks : list (list F))
  : State F * nat :=
  match blocks with
  | [] => (s, 0)
  | dataL :: blocks' =>
      let out := pullData_spectrum c s dataL in
      let '(s', n) := pull_blocks c (state out) blocks' in
      (s', passes out + n)
  end.

(** The number of samples in a run of blocks. *)
Definition total_length (blocks : list (list F)) : Z :=
  foldr (fun b n => (Z.of_nat (length b) + n)%Z) 0%Z blocks.

(** The iterations of [pullData] over what [popall] returned each time. *)
Definition pull_all (e : WaveformDisplay.Env F) (c : Config F)
    (datas : list (list F * list F)) (o : Scope) : Scope :=
  foldl (fun o d => dispatch e c d o) o datas.

(** Controls of the waveform panel are moved one after the other, with a
    redraw tick after each. *)
Definition edits (eds : list (WaveformEdit F)) (o : Scope) : Scope :=
  foldl (fun o ed => updateDrawing (editWaveform ed o)) o eds.

End Ops.

Arguments Scope F : clear implicits.

End OscilloscopeOps.

(** * The test runner: [src/surge-testrunner/main.cpp]

  [main] either runs one of the utilities of [HeadlessNonTestFunctions] or
  hands the command line to Catch2.  The utilities, [std::atoi] and
  [runAllTests] are outside the sources; a run records the calls that are
  made and the texts that are printed, in order. *)

Module TestRunner.

Import String.

(** What [main] prints and calls, in order. *)
Inductive Action :=
  | PrintVersion
  | PrintNonTestMode (option : string)
  | PrintFilterUsage
  | PrintHelp
  | InitializePatchDB
  | StatsFromPlayingEveryPatch
  | RestreamTemplatesWithModifications
  | GenerateNLFeedbackNorms
  | FilterAnalyzer (type subtype : Z)
  | PerformancePlay (patch : string) (count : Z)
  | RunAllTests (argv : list string).

(** How [main] ends: with a return value, or by using [argv[i]] as a
    string for an [i] that is not below [argc] ([argv[argc]] is the null
    pointer, and the array ends there). *)
Inductive Result :=
  | Return (code : Z)
  | BadArgument (i : nat).

Record Run := { trace : list Action; result : Result }.

Definition is_utility (a : Action) : bool :=
  match a with
  | InitializePatchDB | StatsFromPlayingEveryPatch
  | RestreamTemplatesWithModifications | GenerateNLFeedbackNorms
  | FilterAnalyzer _ _ | PerformancePlay _ _ => true
  | _ => false
  end.

Definition is_tests (a : Action) : bool :=
  match a with RunAllTests _ => true | _ => false end.

Section Main.
Variable atoi : string -> Z.
Variable runAllTests : list string -> Z.

(** [strcmp (a, b) == 0]. *)
Definition same (a b : string) : bool := String.eqb a b.

(** The four utilities without operands. *)
Definition plain_utilities (opt : string) : list Action :=
  (if same opt "--initialize-pdb"%string then [InitializePatchDB] else [])
  ++ (if same opt "--stats-from-every-patch"%string
      then [StatsFromPlayingEveryPatch] else [])
  ++ (if same opt "--restream-templates"%string
      then [RestreamTemplatesWithModifications] else [])
  ++ (if same opt "--generate-nlf-norms"%string
      then [GenerateNLFeedbackNorms] else []).

(** A statement of the non-test branch either goes on to the next one or
    leaves [main]. *)
Definition filter_analyzer (argv : list string) (opt : string)
  : list Action * option Result :=
  if same opt "--filter-analyzer"%string then
    if (List.length argv <? 4)%nat then ([PrintFilterUsage], Some (Return 1))
    else
      match argv !! 3%nat, argv !! 4%nat with
      | Some a, Some b => ([FilterAnalyzer (atoi a) (atoi b)], None)
      | None, _ => ([], Some (BadArgument 3))
      | Some _, None => ([], Some (BadArgument 4))
      end
  else ([], None).

Definition performance (argv : list string) (opt : string)
  : list Action * option Result :=
  if same opt "--performance"%string then
    match argv !! 3%nat, argv !! 4%nat with
    | Some a, Some b => ([PerformancePlay a (atoi b)], None)
    | None, _ => ([], Some (BadArgument 3))
    | Some _, None => ([], Some (BadArgument 4))
    end
  else ([], None).

Definition non_test (argv : list string) (opt : string) : Run :=
  let t0 := [PrintVersion; PrintNonTestMode opt] ++ plain_utilities opt in
  match filter_analyzer argv opt with
  | (t1, Some r) => {| trace := t0 ++ t1; result := r |}
  | (t1, None) =>
      match performance argv opt with
      | (t2, Some r) => {| trace := t0 ++ t1 ++ t2; result := r |}
      | (t2, None) => {| trace := t0 ++ t1 ++ t2; result := Return 0 |}
      end
  end.

Definition regtest (argv : list string) : Run :=
  {| trace :=
       [PrintVersion]
       ++ (match argv !! 1%nat with
           | Some a => if same a "--help"%string then [PrintHelp] else []
           | None => []
           end)
       ++ [RunAllTests argv];
     result := Return (runAllTests argv) |}.

Definition main (argv : list string) : Run :=
  match argv !! 1%nat, argv !! 2%nat with
  | Some a1, Some a2 =>
      if same a1 "--non-test"%string then non_test argv a2 else regtest argv
  | _, _ => regtest argv
  end.

End Main.
End TestRunner.


(** ** More example values *)

Module MoreExamples.
Import ExactQ Examples.
Local Open Scope Q_scope.

Definition ex_falling : WaveformDisplay.State Q :=
  ex_state WaveformDisplay.kTriggerFalling 0.3 false 0.

Definition ex_internal : WaveformDisplay.State Q :=
  ex_state WaveformDisplay.kTriggerInternal 0.3 false 0.

(** The locals of [ex_full] with an oscillator speed of 0.4 per sample. *)
Definition ex_osc_locals : WaveformDisplay.Locals Q :=
  {| WaveformDisplay.l_gain := WaveformDisplay.l_gain ex_locals;
     WaveformDisplay.l_triggerLevel := WaveformDisplay.l_triggerLevel ex_locals;
     WaveformDisplay.l_triggerLimit := WaveformDisplay.l_triggerLimit ex_locals;
     WaveformDisplay.l_triggerSpeed := 0.4;
     WaveformDisplay.l_counterSpeed := WaveformDisplay.l_counterSpeed ex_locals;
     WaveformDisplay.l_R := WaveformDisplay.l_R ex_locals |}.

Definition ex_quiet : list Q := [0; 0; 0].

(** A scope in waveform mode with both channels off and nothing pending. *)
Definition ex_scope : OscilloscopeOps.Scope Q :=
  {| OscilloscopeOps.channel_selection_ := Oscilloscope.OFF;
     OscilloscopeOps.scope_mode_ := Oscilloscope.WAVEFORM;
     OscilloscopeOps.waveform_ := ex_free;
     OscilloscopeOps.waveform_parameters_ :=
       {| Oscilloscope.params_ := WaveformDisplay.params_ ex_free;
          Oscilloscope.params_changed_ := false |};
     OscilloscopeOps.spectrum_params_ :=
       {| SpectrumDisplay.noise_floor := 0.5;
          SpectrumDisplay.max_db := 0.5;
          SpectrumDisplay.freeze := false |};
     OscilloscopeOps.spectrum_parameters_ :=
       {| Oscilloscope.params_ :=
            {| SpectrumDisplay.noise_floor := 0.5;
               SpectrumDisplay.max_db := 0.5;
               SpectrumDisplay.freeze := false |};
          Oscilloscope.params_changed_ := false |};
     OscilloscopeOps.background_waveform_params_ :=
       WaveformDisplay.params_ ex_free;
     OscilloscopeOps.background_spectrum_params_ :=
       {| SpectrumDisplay.noise_floor := 0.5;
          SpectrumDisplay.max_db := 0.5;
          SpectrumDisplay.freeze := false |};
     OscilloscopeOps.background_mode_ := Oscilloscope.WAVEFORM;
     OscilloscopeOps.spectrum_data_ := ex_spectrum 5 |}.

(** The same scope in spectrum mode with the left channel on. *)
Definition ex_scope_spectrum : OscilloscopeOps.Scope Q :=
  {| OscilloscopeOps.channel_selection_ := Oscilloscope.LEFT;
     OscilloscopeOps.scope_mode_ := Oscilloscope.SPECTRUM;
     OscilloscopeOps.waveform_ := OscilloscopeOps.waveform_ ex_scope;
     OscilloscopeOps.waveform_parameters_ :=
       OscilloscopeOps.waveform_parameters_ ex_scope;
     OscilloscopeOps.spectrum_params_ :=
       OscilloscopeOps.spectrum_params_ ex_scope;
     OscilloscopeOps.spectrum_parameters_ :=
       OscilloscopeOps.spectrum_parameters_ ex_scope;
     OscilloscopeOps.background_waveform_params_ :=
       OscilloscopeOps.background_waveform_params_ ex_scope;
     OscilloscopeOps.background_spectrum_params_ :=
       OscilloscopeOps.background_spectrum_params_ ex_scope;
     OscilloscopeOps.background_mode_ := Oscilloscope.SPECTRUM;
     OscilloscopeOps.spectrum_data_ := ex_spectrum 5 |}.

Definition ex_edits : list (Oscilloscope.WaveformEdit Q) :=
  [Oscilloscope.SetTimeWindow 0.1; Oscilloscope.ToggleFreeze].

(** What three calls of [popall] return: a block, nothing, a block. *)
Definition ex_pops : list (list Q * list Q) :=
  [(ex_samples, ex_samples); ([], []); (ex_samples, ex_samples)].

(** Displayed data of four bins at the bottom of a component of height
    100, for a [dbRange] of 100. *)
Definition ex_displayed : list Q := replicate 4%nat 100.




(** Stand-ins for [std::atoi] and [runAllTests]. *)
Definition ex_atoi (a : String.string) : Z := Z.of_nat (String.length a).

Definition ex_runAllTests (argv : list String.string) : Z := 0%Z.

End MoreExamples.

(** ** IEEE arithmetic

  The carrier of the kernel's binary64 numbers, for the behaviour that
  exact arithmetic does not have: NaN, the infinities and comparisons that
  are false on a NaN.  It stands for both [float] and [double] of the
  source; the special values behave alike in the two formats, the
  rounding does not.  [std::pow] and [std::log10] are parameters of the
  instance.  [truncate] is [static_cast<int>] on the values for which the
  source defines it. *)

Module Ieee.

(** Conversion of an integer, exact below 2^53 in magnitude. *)
Definition of_Z (z : Z) : PrimFloat.float :=
  match z with
  | Z0 => PrimFloat.zero
  | Zpos p => PrimFloat.of_uint63 (Uint63Axioms.of_pos p)
  | Zneg p => PrimFloat.opp (PrimFloat.of_uint63 (Uint63Axioms.of_pos p))
  end.

(** Rounding towards zero; 0 for a NaN or an infinity, where the
    conversion is undefined in the source. *)
Definition truncate (f : PrimFloat.float) : Z :=
  match FloatOps.Prim2SF f with
  | SpecFloat.S754_finite s m e =>
      let v := if (0 <=? e)%Z then (Zpos m * 2 ^ e)%Z
               else (Zpos m / 2 ^ (- e))%Z in
      if s then (- v)%Z else v
  | _ => 0%Z
  end.

(** [(2^24 - 1) * 2^104] and [2^-126], the largest and the smallest
    normal number of binary32. *)
Definition FLT_MAX : PrimFloat.float :=
  PrimFloat.mul (of_Z (2 ^ 24 - 1))
    (PrimFloat.mul (of_Z (2 ^ 52)) (of_Z (2 ^ 52))).

Definition FLT_MIN : PrimFloat.float :=
  PrimFloat.div PrimFloat.one
    (PrimFloat.mul (PrimFloat.mul (of_Z (2 ^ 42)) (of_Z (2 ^ 42)))
                   (of_Z (2 ^ 42))).

(** A literal is the quotient of its numerator and denominator, rounded
    once. *)
Definition Float_Arith (pow log : PrimFloat.float -> PrimFloat.float)
  : Arith PrimFloat.float := {|
  lit := fun q => PrimFloat.div (of_Z (Qnum q)) (of_Z (Zpos (Qden q)));
  of_int := of_Z;
  to_int := truncate;
  fadd := PrimFloat.add;
  fsub := PrimFloat.sub;
  fmul := PrimFloat.mul;
  fdiv := PrimFloat.div;
  fopp := PrimFloat.opp;
  fabs := PrimFloat.abs;
  fltb := PrimFloat.ltb;
  fleb := PrimFloat.leb;
  pow10 := pow;
  log10 := log;
  flt_max := FLT_MAX;
  flt_lowest := PrimFloat.opp FLT_MAX;
  flt_min := FLT_MIN
|}.

End Ieee.

Module IeeeExamples.
Import Ieee.

(** The dials in the middle, DC removal on. *)
Definition half : PrimFloat.float := PrimFloat.div (of_Z 1) (of_Z 2).

Definition fl_params : WaveformDisplay.Parameters PrimFloat.float :=
  {| WaveformDisplay.trigger_speed := half;
     WaveformDisplay.trigger_type := WaveformDisplay.kTriggerFree;
     WaveformDisplay.trigger_level := half;
     WaveformDisplay.trigger_limit := half;
     WaveformDisplay.time_window := half;
     WaveformDisplay.amp_window := half;
     WaveformDisplay.freeze := false;
     WaveformDisplay.dc_kill := true;
     WaveformDisplay.sync_draw := false |}.

(** A display of three columns at the given sample rate. *)
Definition fl_env (rate : Z) : WaveformDisplay.Env PrimFloat.float :=
  {| WaveformDisplay.getWidth := 3%nat;
     WaveformDisplay.getHeight := 100%Z;
     WaveformDisplay.samplerate := of_Z rate |}.

(** A display whose filter state holds [d], the last input being 0. *)
Definition fl_state (d : PrimFloat.float) : WaveformDisplay.State PrimFloat.float :=
  {| WaveformDisplay.params_ := fl_params;
     WaveformDisplay.peaks := [];
     WaveformDisplay.copy := [];
     WaveformDisplay.index := 0;
     WaveformDisplay.counter := PrimFloat.one;
     WaveformDisplay.max := FLT_MIN;
     WaveformDisplay.min := FLT_MIN;
     WaveformDisplay.lastIsMax := false;
     WaveformDisplay.previousSample := PrimFloat.zero;
     WaveformDisplay.triggerPhase := PrimFloat.zero;
     WaveformDisplay.triggerLimitPhase := 0%Z;
     WaveformDisplay.dcKill := d;
     WaveformDisplay.dcFilterTemp := PrimFloat.zero |}.

End IeeeExamples.

(** * Theorems *)

(** ** The exact instance is a total order *)

Module ExactQFacts.
Import ExactQ.

Lemma Qltb_lt (a b : Q) : Qltb a b = true <-> (a < b)%Q.
Proof.
  unfold Qltb. rewrite negb_true_iff, <- not_true_iff_false, Qle_bool_iff.
  split; [apply Qnot_le_lt | apply Qlt_not_le].
Qed.

Lemma Qltb_ge (a b : Q) : Qltb a b = false <-> (b <= a)%Q.
Proof.
  unfold Qltb. rewrite negb_false_iff. apply Qle_bool_iff.
Qed.

#[export] Instance Q_ArithOrder : ArithOrder Q.
Proof.
  split.
  - intros a. apply Qle_bool_iff, Qle_refl.
  - intros a b Hab. apply Qle_bool_iff. now apply Qltb_ge.
Qed.

End ExactQFacts.

(** ** The waveform engine *)

Module WaveformFacts.
Import WaveformDisplay.

Section Step.
  Context {F : Type} `{Arith F}.
  Variables (e : Env F) (l : Locals F).

  Implicit Types (s : State F) (f : F).

Ltac step_cases :=
  unfold sample_step, until_lockout, after_trigger, pixel_boundary,
    lockout, fire;
  simpl;
  destruct (trigger_type (params_ _)) eqn:?; simpl;
  intros;
  repeat (case_match; simplify_eq/=);
  repeat match goal with
         | Ht : trigger_type ?p = _,
           Hc : context [is_free (trigger_type ?p)] |- _ =>
             rewrite Ht in Hc; simpl in Hc
         | Ht : trigger_type ?p = _,
           Hc : context [is_internal (trigger_type ?p)] |- _ =>
             rewrite Ht in Hc; simpl in Hc
         end;
  try done.

Lemma sample_step_params s f :
  params_ (sample_step e l s f).1 = params_ s.
Proof. step_cases. Qed.

Lemma sample_step_ev_previous s f :
  ev_previous (sample_step e l s f).2 = previousSample s.
Proof. step_cases. Qed.

Lemma sample_step_previousSample s f :
  previousSample (sample_step e l s f).1 = ev_sample (sample_step e l s f).2.
Proof. step_cases. Qed.

Lemma sample_step_phase s f :
  triggerLimitPhase (sample_step e l s f).1 =
  if ev_trigger (sample_step e l s f).2 then 0%Z
  else (triggerLimitPhase s + 1)%Z.
Proof. step_cases. Qed.

Lemma sample_step_accepted_fired s f :
  ev_trigger (sample_step e l s f).2 = true ->
  ev_fired (sample_step e l s f).2 = true.
Proof. step_cases. Qed.

Lemma sample_step_accepted_limit s f :
  ev_trigger (sample_step e l s f).2 = true ->
  is_free (trigger_type (params_ s)) = false ->
  is_internal (trigger_type (params_ s)) = false ->
  (l_triggerLimit l <= triggerLimitPhase s + 1)%Z.
Proof.
  step_cases;
    repeat match goal with
           | Hc : _ && _ = false |- _ => apply andb_false_iff in Hc; destruct Hc
           | Hc : negb _ = false |- _ => apply negb_false_iff in Hc
           end; try congruence; try lia.
Qed.

Lemma sample_step_never_suppressed s f :
  is_free (trigger_type (params_ s)) = true
  \/ is_internal (trigger_type (params_ s)) = true ->
  ev_trigger (sample_step e l s f).2 = ev_fired (sample_step e l s f).2.
Proof.
  step_cases;
    repeat match goal with
           | Hc : _ && _ = true |- _ => apply andb_true_iff in Hc; destruct Hc
           | Hc : negb _ = true |- _ => apply negb_true_iff in Hc
           end; simpl in *; intuition congruence.
Qed.

Lemma sample_step_fired_rising s f :
  trigger_type (params_ s) = kTriggerRising ->
  ev_fired (sample_step e l s f).2 =
  (ev_sample (sample_step e l s f).2 >=? l_triggerLevel l)%F
  && (previousSample s <? l_triggerLevel l)%F.
Proof. step_cases. Qed.

Lemma sample_step_fired_falling s f :
  trigger_type (params_ s) = kTriggerFalling ->
  ev_fired (sample_step e l s f).2 =
  (ev_sample (sample_step e l s f).2 <=? l_triggerLevel l)%F
  && (previousSample s >? l_triggerLevel l)%F.
Proof. step_cases. Qed.


Lemma sample_step_index s f :
  index (sample_step e l s f).1 =
  (if ev_trigger (sample_step e l s f).2 then 0 else index s)
  + (if ev_wrote (sample_step e l s f).2 then 1 else 0).
Proof. step_cases; lia. Qed.

Lemma sample_step_wrote s f :
  ev_wrote (sample_step e l s f).2 = true ->
  (if ev_trigger (sample_step e l s f).2 then 0 else index s) < getWidth e.
Proof.
  step_cases;
    match goal with
    | Hc : (_ <? _) = true |- _ => apply Nat.ltb_lt in Hc; simpl in Hc; lia
    end.
Qed.

Lemma sample_step_dc s f :
  dcKill (sample_step e l s f).1 = dcKill (dc_filter l s f)
  /\ dcFilterTemp (sample_step e l s f).1 = f
  /\ ev_sample (sample_step e l s f).2 = gained l (dc_filter l s f) f.
Proof. step_cases. Qed.


Lemma dc_filter_dcFilterTemp s f : dcFilterTemp (dc_filter l s f) = f.
Proof. reflexivity. Qed.


(** *** The buffers *)

Lemma zero_fill_lookup (c : F) (pts : list (juce.Point F)) idx n j :
  foldl (fun pts k =>
           alter (juce.set_y c) (2 * k) (alter (juce.set_y c) (2 * k + 1) pts))
        pts (seq idx n) !! j =
  if decide (2 * idx <= j < 2 * (idx + n))
  then juce.set_y c <$> pts !! j else pts !! j.
Proof.
  revert j. induction n as [|n IH]; intros j.
  - simpl. case_decide; [lia|done].
  - rewrite seq_S, foldl_snoc, !list_lookup_alter, !IH.
    repeat case_decide; subst; try lia; try done.
Qed.

Lemma zero_peaks_lookup pts idx j :
  zero_peaks e idx pts !! j =
  if decide (2 * idx <= j < 2 * getWidth e)
  then juce.set_y (centerline e) <$> pts !! j else pts !! j.
Proof.
  unfold zero_peaks. rewrite zero_fill_lookup.
  repeat case_decide; try lia; done.
Qed.

Lemma zero_peaks_length pts idx :
  length (zero_peaks e idx pts) = length pts.
Proof.
  unfold zero_peaks. generalize (seq idx (getWidth e - idx)). intros ks.
  revert pts. induction ks as [|k ks IH]; intros pts; [done|].
  simpl. by rewrite IH, !length_alter.
Qed.

Lemma copy_fill_lookup (pks cpy : list (juce.Point F)) n j :
  foldl (fun cpy j =>
           match pks !! j with
           | Some p => alter (juce.set_y (juce.y p)) j cpy
           | None => cpy
           end)
        cpy (seq 0 n) !! j =
  match pks !! j with
  | Some p => if decide (j < n) then juce.set_y (juce.y p) <$> cpy !! j
              else cpy !! j
  | None => cpy !! j
  end.
Proof.
  revert j. induction n as [|n IH]; intros j.
  - simpl. destruct (pks !! j); [|done]. destruct (decide (j < 0)); [lia|done].
  - rewrite seq_S, foldl_snoc. simpl.
    destruct (pks !! n) as [pn|] eqn:Hn.
    + rewrite list_lookup_alter, !IH.
      case_decide as Hnj.
      * subst j. rewrite Hn. repeat case_decide; try lia; done.
      * destruct (pks !! j); [|done]. repeat case_decide; try lia; done.
    + rewrite IH. destruct (pks !! j) eqn:Hj; [|done].
      repeat case_decide; try lia; try done.
      assert (j = n) by lia. congruence.
Qed.

Lemma copy_peaks_lookup pks cpy j :
  copy_peaks e pks cpy !! j =
  match pks !! j with
  | Some p => if decide (j < getWidth e * 2)
              then juce.set_y (juce.y p) <$> cpy !! j else cpy !! j
  | None => cpy !! j
  end.
Proof. apply copy_fill_lookup. Qed.

Lemma copy_peaks_length pks cpy :
  length (copy_peaks e pks cpy) = length cpy.
Proof.
  unfold copy_peaks. generalize (seq 0 (getWidth e * 2)). intros ks.
  revert cpy. induction ks as [|k ks IH]; intros cpy; [done|].
  simpl. rewrite IH. destruct (pks !! k); [apply length_alter|done].
Qed.

Lemma until_lockout_buffers s f :
  peaks (until_lockout e l s f).1.1.1 = peaks s
  /\ copy (until_lockout e l s f).1.1.1 = copy s
  /\ index (until_lockout e l s f).1.1.1 = index s.
Proof.
  unfold until_lockout, lockout, fire. simpl.
  destruct (trigger_type (params_ s)); simpl; try done.
  by destruct (fleb _ _).
Qed.

Lemma sample_step_factors s f :
  let '(s3, sample, fired, trigger) := until_lockout e l s f in
  ev_sample (sample_step e l s f).2 = sample
  /\ ev_trigger (sample_step e l s f).2 = trigger
  /\ (sample_step e l s f).1 =
     (after_trigger e l (if trigger then on_trigger e s3 else s3) sample).1
  /\ ev_wrote (sample_step e l s f).2 =
     (after_trigger e l (if trigger then on_trigger e s3 else s3) sample).2.
Proof.
  unfold sample_step.
  destruct (until_lockout e l s f) as [[[s3 sample] fired] trigger].
  by destruct (after_trigger _ _ _ _).
Qed.


(** *** The loop *)

Lemma process_loop_cons s f data :
  process_loop e l s (f :: data) =
  ((process_loop e l (sample_step e l s f).1 data).1,
   (sample_step e l s f).2 :: (process_loop e l (sample_step e l s f).1 data).2).
Proof.
  simpl. destruct (sample_step e l s f) as [s1 ev]. simpl.
  by destruct (process_loop e l s1 data).
Qed.

Lemma process_loop_app s d1 d2 :
  process_loop e l s (d1 ++ d2) =
  ((process_loop e l (process_loop e l s d1).1 d2).1,
   (process_loop e l s d1).2 ++ (process_loop e l (process_loop e l s d1).1 d2).2).
Proof.
  revert s. induction d1 as [|f d1 IH]; intros s.
  - simpl. by destruct (process_loop e l s d2).
  - rewrite <- app_comm_cons, !process_loop_cons, IH. done.
Qed.

Lemma process_loop_length s data :
  length (process_loop e l s data).2 = length data.
Proof.
  revert s. induction data as [|f data IH]; intros s; [done|].
  rewrite process_loop_cons. simpl. by rewrite IH.
Qed.

Lemma process_loop_params s data :
  params_ (process_loop e l s data).1 = params_ s.
Proof.
  revert s. induction data as [|f data IH]; intros s; [done|].
  rewrite process_loop_cons. simpl. by rewrite IH, sample_step_params.
Qed.



Lemma process_loop_lookup s data k :
  (process_loop e l s data).2 !! k =
  (fun f => (sample_step e l (process_loop e l s (take k data)).1 f).2)
    <$> data !! k.
Proof.
  revert s k. induction data as [|f data IH]; intros s [|k]; try done.
  - by rewrite process_loop_cons.
  - rewrite process_loop_cons, firstn_cons, process_loop_cons. simpl.
    apply IH.
Qed.

Lemma process_loop_take_S s data k f :
  data !! k = Some f ->
  (process_loop e l s (take (S k) data)).1 =
  (sample_step e l (process_loop e l s (take k data)).1 f).1.
Proof.
  intros Hk. rewrite (take_S_r _ _ _ Hk), process_loop_app. simpl.
  by destruct (sample_step _ _ _ _).
Qed.

Lemma process_loop_phase_le s data :
  (0 <= triggerLimitPhase s)%Z ->
  (0 <= triggerLimitPhase (process_loop e l s data).1
   <= triggerLimitPhase s + Z.of_nat (length data))%Z.
Proof.
  revert s. induction data as [|f data IH]; intros s Hs; [simpl; lia|].
  rewrite process_loop_cons. cbn [fst length].
  specialize (IH (sample_step e l s f).1).
  rewrite sample_step_phase in IH.
  destruct (ev_trigger _); lia.
Qed.



Lemma sample_step_index_bound s f :
  ev_trigger (sample_step e l s f).2 = true \/ index s <= getWidth e ->
  index (sample_step e l s f).1 <= getWidth e.
Proof.
  intros Hs. rewrite sample_step_index.
  pose proof (sample_step_wrote s f) as Hw.
  destruct (ev_wrote _), (ev_trigger _); try (specialize (Hw eq_refl));
    simpl in *; destruct Hs; try discriminate; lia.
Qed.

Lemma process_loop_index_bound s data :
  index s <= getWidth e ->
  index (process_loop e l s data).1 <= getWidth e.
Proof.
  revert s. induction data as [|f data IH]; intros s Hs; [done|].
  rewrite process_loop_cons. simpl. apply IH, sample_step_index_bound. by right.
Qed.

(** The buffers keep the length that [resized] gave them. *)
Lemma write_column_length s : length (write_column e s) = length (peaks s).
Proof. unfold write_column. by rewrite !length_alter. Qed.

Lemma sample_step_lengths s f :
  length (peaks (sample_step e l s f).1) = length (peaks s)
  /\ length (copy (sample_step e l s f).1) = length (copy s).
Proof.
  step_cases;
    rewrite ?write_column_length; simpl;
    rewrite ?zero_peaks_length, ?copy_peaks_length; done.
Qed.

Lemma process_loop_lengths s data :
  length (peaks (process_loop e l s data).1) = length (peaks s)
  /\ length (copy (process_loop e l s data).1) = length (copy s).
Proof.
  revert s. induction data as [|f data IH]; intros s; [done|].
  rewrite process_loop_cons. simpl.
  destruct (IH (sample_step e l s f).1) as [-> ->].
  apply sample_step_lengths.
Qed.

(** *** Edge triggers and the lockout *)

Lemma loop_state_params s data k :
  params_ (process_loop e l s (take k data)).1 = params_ s.
Proof. apply process_loop_params. Qed.

Lemma loop_rising_at_crossing s data k ev :
  trigger_type (params_ s) = kTriggerRising ->
  (process_loop e l s data).2 !! k = Some ev ->
  ev_trigger ev = true ->
  (ev_sample ev >=? l_triggerLevel l)%F = true
  /\ (ev_previous ev <? l_triggerLevel l)%F = true.
Proof.
  intros Hty Hk Htr. rewrite process_loop_lookup in Hk.
  destruct (data !! k) as [f|]; [|done]. injection Hk as <-.
  set (st := (process_loop e l s (take k data)).1) in *.
  assert (Hst : trigger_type (params_ st) = kTriggerRising)
    by (unfold st; by rewrite loop_state_params).
  apply sample_step_accepted_fired in Htr.
  rewrite (sample_step_fired_rising _ _ Hst) in Htr.
  apply andb_true_iff in Htr as [Hge Hlt].
  by rewrite sample_step_ev_previous.
Qed.

Lemma loop_previous_first s data ev :
  (process_loop e l s data).2 !! 0 = Some ev ->
  ev_previous ev = previousSample s.
Proof.
  rewrite process_loop_lookup. destruct (data !! 0) as [f|]; [|done].
  intros [= <-]. by rewrite sample_step_ev_previous.
Qed.

Lemma loop_previous_chain s data k ev :
  (process_loop e l s data).2 !! S k = Some ev ->
  exists ev0, (process_loop e l s data).2 !! k = Some ev0
              /\ ev_previous ev = ev_sample ev0.
Proof.
  rewrite !process_loop_lookup.
  destruct (data !! S k) as [f|] eqn:HSk; [|done]. intros [= <-].
  destruct (data !! k) as [f0|] eqn:Hk.
  2:{ apply lookup_ge_None in Hk. apply lookup_lt_Some in HSk. lia. }
  eexists. split; [done|].
  by rewrite sample_step_ev_previous, (process_loop_take_S _ _ _ _ Hk),
    sample_step_previousSample.
Qed.

Lemma loop_trigger_distance s data i j evi evj :
  is_free (trigger_type (params_ s)) = false ->
  is_internal (trigger_type (params_ s)) = false ->
  i < j ->
  (process_loop e l s data).2 !! i = Some evi ->
  (process_loop e l s data).2 !! j = Some evj ->
  ev_trigger evi = true ->
  ev_trigger evj = true ->
  (l_triggerLimit l <= Z.of_nat (j - i))%Z.
Proof.
  intros Hfree Hint Hij Hi Hj Hti Htj.
  rewrite process_loop_lookup in Hi, Hj.
  destruct (data !! i) as [fi|] eqn:Hdi; [|done]. injection Hi as <-.
  destruct (data !! j) as [fj|] eqn:Hdj; [|done]. injection Hj as <-.
  pose proof (lookup_lt_Some _ _ _ Hdj) as Hjlen.
  (* the lockout counter is zero right after sample [i] *)
  assert (Hzero : triggerLimitPhase (process_loop e l s (take (S i) data)).1 = 0%Z).
  { rewrite (process_loop_take_S _ _ _ _ Hdi), sample_step_phase. by rewrite Hti. }
  (* and grows by at most one per sample up to sample [j] *)
  assert (Hsplit : take j data = take (S i) data ++ drop (S i) (take j data)).
  { rewrite <- (take_drop (S i) (take j data)) at 1.
    rewrite take_take. f_equal. f_equal. lia. }
  pose proof (process_loop_phase_le
                (process_loop e l s (take (S i) data)).1
                (drop (S i) (take j data))) as Hle.
  rewrite Hzero in Hle. specialize (Hle ltac:(lia)).
  rewrite length_drop, length_take in Hle.
  assert (Hst : (process_loop e l s (take j data)).1 =
                (process_loop e l (process_loop e l s (take (S i) data)).1
                   (drop (S i) (take j data))).1).
  { rewrite Hsplit at 1. by rewrite process_loop_app. }
  apply sample_step_accepted_limit in Htj.
  - rewrite Hst in Htj. lia.
  - by rewrite loop_state_params.
  - by rewrite loop_state_params.
Qed.

Lemma loop_never_suppressed s data k ev :
  is_free (trigger_type (params_ s)) = true
  \/ is_internal (trigger_type (params_ s)) = true ->
  (process_loop e l s data).2 !! k = Some ev ->
  ev_trigger ev = ev_fired ev.
Proof.
  intros Hty Hk. rewrite process_loop_lookup in Hk.
  destruct (data !! k) as [f|]; [|done]. injection Hk as <-.
  apply sample_step_never_suppressed. by rewrite loop_state_params.
Qed.

Lemma loop_sample_gained s data k ev :
  (process_loop e l s data).2 !! k = Some ev ->
  exists x, ev_sample ev = juce.jlimit (lit (-1)) (lit 1) (x * l_gain l)%F.
Proof.
  intros Hk. rewrite process_loop_lookup in Hk.
  destruct (data !! k) as [f|]; [|done]. injection Hk as <-.
  destruct (sample_step_dc (process_loop e l s (take k data)).1 f)
    as (_ & _ & ->).
  unfold gained. eauto.
Qed.

(** *** Free-running sweeps *)





End Step.

Section Claims.
  Context {F : Type} `{Arith F}.

  Implicit Types (e : Env F) (s : State F) (data : list F).

(** Two blocks processed one after the other are processed as their
    concatenation, the parameters being the same for both. *)
Lemma process_events_app e s d1 d2 :
  process_events e s (d1 ++ d2) =
  ((process_events e (process_events e s d1).1 d2).1,
   (process_events e s d1).2 ++ (process_events e (process_events e s d1).1 d2).2).
Proof.
  unfold process_events. destruct (freeze (params_ s)) eqn:Hfr; simpl.
  - by rewrite Hfr.
  - by rewrite process_loop_params, Hfr, process_loop_app.
Qed.

(** C1.  With trigger mode Rising, the sample of every iteration is a
    value times the gain, limited to the range from -1 to 1, and [process]
    records a trigger only at a
    sample whose gained and clamped value is at least the trigger level
    while the sample before it was below the level, where the sample before
    the first one is the stored [previousSample] and otherwise the gained
    value of the preceding sample; two recorded triggers are at least
    [triggerLimit] samples apart.  With trigger mode Free or Internal the
    lockout never changes a trigger that fired. *)
Theorem C1_rising_trigger_and_lockout e s data :
  let evs := (process_events e s data).2 in
  let level := triggerLevel (params_ s) in
  let limit := l_triggerLimit (locals e (params_ s)) in
  (trigger_type (params_ s) = kTriggerRising ->
     (forall k ev, evs !! k = Some ev ->
        exists x, ev_sample ev =
                  juce.jlimit (lit (-1)) (lit 1) (x * gain (params_ s))%F)
     /\ (forall k ev, evs !! k = Some ev -> ev_trigger ev = true ->
          (ev_sample ev >=? level)%F = true
          /\ (ev_previous ev <? level)%F = true)
     /\ (forall ev, evs !! 0 = Some ev -> ev_previous ev = previousSample s)
     /\ (forall k ev, evs !! S k = Some ev ->
           exists ev0, evs !! k = Some ev0 /\ ev_previous ev = ev_sample ev0)
     /\ (forall i j evi evj, i < j ->
           evs !! i = Some evi -> evs !! j = Some evj ->
           ev_trigger evi = true -> ev_trigger evj = true ->
           (limit <= Z.of_nat (j - i))%Z))
  /\ (trigger_type (params_ s) = kTriggerFree
      \/ trigger_type (params_ s) = kTriggerInternal ->
      forall k ev, evs !! k = Some ev -> ev_trigger ev = ev_fired ev).
Proof.
  unfold process_events. destruct (freeze (params_ s)).
  { simpl. split; [intros _; split; [|split; [|split; [|split]]]|];
      intros; done. }
  split.
  - intros Hty. split; [|split; [|split; [|split]]].
    + intros k ev. apply loop_sample_gained.
    + intros k ev Hk Htr.
      apply (loop_rising_at_crossing _ _ _ _ _ _ Hty Hk Htr).
    + apply loop_previous_first.
    + apply loop_previous_chain.
    + intros i j evi evj. apply loop_trigger_distance; by rewrite Hty.
  - intros Hty k ev. apply loop_never_suppressed.
    destruct Hty as [-> | ->]; auto.
Qed.






(** C3.  When the trigger of an iteration is accepted, the body of
    [if (trigger)] runs on the buffers and the write index that the
    iteration started with, and the rest of the iteration continues from
    its result.  In that result every point of the columns from the write
    index to the width has the centre-line y value and the other points are
    as before; every point of the sync copy has the y value of the point of
    the buffer at the same place; the write index is 0, the counter is 1.0,
    the extrema are reset and the lockout counter is 0. *)
Theorem C3_accepted_trigger_resets e l s f :
  length (peaks s) = getWidth e * 2 ->
  length (copy s) = getWidth e * 2 ->
  ev_trigger (sample_step e l s f).2 = true ->
  exists s3 : State F,
    peaks s3 = peaks s /\ copy s3 = copy s /\ index s3 = index s
    /\ (sample_step e l s f).1 =
       (after_trigger e l (on_trigger e s3)
          (ev_sample (sample_step e l s f).2)).1
    /\ (forall j, j < getWidth e * 2 ->
          exists p p',
            peaks s !! j = Some p
            /\ peaks (on_trigger e s3) !! j = Some p'
            /\ juce.x p' = juce.x p
            /\ juce.y p' = if decide (index s * 2 <= j)
                           then centerline e else juce.y p)
    /\ (forall j, j < getWidth e * 2 ->
          exists p' q q',
            peaks (on_trigger e s3) !! j = Some p'
            /\ copy s !! j = Some q
            /\ copy (on_trigger e s3) !! j = Some q'
            /\ juce.x q' = juce.x q
            /\ juce.y q' = juce.y p')
    /\ length (peaks (on_trigger e s3)) = getWidth e * 2
    /\ length (copy (on_trigger e s3)) = getWidth e * 2
    /\ index (on_trigger e s3) = 0
    /\ counter (on_trigger e s3) = lit 1
    /\ max (on_trigger e s3) = flt_lowest
    /\ min (on_trigger e s3) = flt_max
    /\ triggerLimitPhase (on_trigger e s3) = 0%Z.
Proof.
  intros Hpk Hcp Htr.
  pose proof (sample_step_factors e l s f) as Hf.
  pose proof (until_lockout_buffers e l s f) as (Hb1 & Hb2 & Hb3).
  destruct (until_lockout e l s f) as [[[s3 sample] fired] trigger].
  simpl in Hb1, Hb2, Hb3. destruct Hf as (Hs & Ht & Hst & _).
  rewrite Htr in Ht. subst trigger.
  exists s3. rewrite Hs.
  assert (Hzero : forall j, j < getWidth e * 2 ->
            exists p p',
              peaks s !! j = Some p
              /\ peaks (on_trigger e s3) !! j = Some p'
              /\ juce.x p' = juce.x p
              /\ juce.y p' = if decide (index s * 2 <= j)
                             then centerline e else juce.y p).
  { intros j Hj.
    destruct (lookup_lt_is_Some_2 (peaks s) j) as [p Hp]; [lia|].
    simpl. rewrite zero_peaks_lookup, Hb1, Hb3, Hp.
    repeat case_decide; try lia; simpl; eauto 10. }
  repeat split; try done.
  - intros j Hj.
    destruct (Hzero j Hj) as (p & p' & Hp & Hp' & _).
    destruct (lookup_lt_is_Some_2 (copy s) j) as [q Hq]; [lia|].
    exists p', q, (juce.set_y (juce.y p') q).
    repeat split; try done.
    simpl in Hp' |- *. rewrite copy_peaks_lookup, Hp', Hb2, Hq.
    case_decide; [done|lia].
  - simpl. by rewrite zero_peaks_length, Hb1.
  - simpl. by rewrite copy_peaks_length, Hb2.
Qed.

(** C8.  With the freeze parameter set, [process] returns the state it was
    given, whatever the block: the DC filter, the previous sample, the
    extrema, the counter, the trigger phase, the lockout counter, the write
    index and both buffers are all unchanged, and no iteration runs. *)
Theorem C8_freeze_changes_nothing e s data :
  freeze (params_ s) = true ->
  process e s data = s /\ (process_events e s data).2 = [].
Proof.
  intros Hfr. unfold process, process_events. by rewrite Hfr.
Qed.

End Claims.
End WaveformFacts.

(** ** The spectrum path and the parameter stores *)

Module OscilloscopeFacts.
Import SpectrumDisplay Oscilloscope.

Section Moves.
  Context {F : Type} `{Arith F}.


Lemma move_range_lookup (src : list F) (n : nat) dst j :
  move_range src (Z.of_nat n) dst !! j =
  if decide (n <= j < n + length src /\ j < length dst)
  then src !! (j - n) else dst !! j.
Proof.
  revert n dst. induction src as [|v src IH]; intros n dst.
  - simpl. case_decide; [lia|done].
  - simpl. replace (Z.of_nat n + 1)%Z with (Z.of_nat (S n)) by lia.
    rewrite IH. unfold store.
    rewrite (proj2 (Z.leb_le 0 (Z.of_nat n))) by lia.
    rewrite Nat2Z.id, length_insert.
    destruct (decide (j = n)) as [->|Hne].
    + rewrite list_lookup_insert, Nat.sub_diag.
      repeat case_decide; try lia; try done.
    + rewrite list_lookup_insert_ne by done.
      repeat case_decide; try lia; try done.
      replace (j - n) with (S (j - S n)) by lia. done.
Qed.


Lemma move_indices_spec n d i :
  In i (move_indices n d) <-> (d <= i < d + Z.of_nat n)%Z.
Proof.
  unfold move_indices. rewrite in_map_iff. split.
  - intros (k & <- & Hk). apply in_seq in Hk. lia.
  - intros Hi. exists (Z.to_nat (i - d)). split; [lia|].
    apply in_seq. lia.
Qed.

Lemma bins_lookup (g : nat -> F) (scope : list F) n i :
  foldl (fun scope i => <[i := g i]> scope) scope (seq 0 n) !! i =
  if decide (i < n /\ i < length scope) then Some (g i) else scope !! i.
Proof.
  induction n as [|n IH].
  - cbn [seq foldl]. case_decide; [lia|done].
  - rewrite seq_S, foldl_snoc. cbn [Nat.add].
    assert (Hlen : forall m, length (foldl (fun scope i => <[i := g i]> scope)
                                       scope (seq 0 m)) = length scope).
    { clear. intros m. induction m as [|m IHm]; [done|].
      by rewrite seq_S, foldl_snoc, length_insert. }
    rewrite list_lookup_insert, Hlen, IH.
    repeat case_decide; destruct_and?; subst; try lia; try done.
Qed.

Lemma bins_length (g : nat -> F) (scope : list F) n :
  length (foldl (fun scope i => <[i := g i]> scope) scope (seq 0 n))
  = length scope.
Proof.
  induction n as [|n IH]; [done|].
  by rewrite seq_S, foldl_snoc, length_insert.
Qed.

End Moves.
Section SpectrumClaims.
  Context {F : Type} `{ArithOrder F} `{!Dsp F} `{!DspInPlace F}.

  Implicit Types (c : Config F) (s : State F) (dataL : list F).

Lemma jlimit_bounds (lo hi v : F) :
  (lo <=? hi)%F = true ->
  (lo <=? juce.jlimit lo hi v)%F = true
  /\ (juce.jlimit lo hi v <=? hi)%F = true.
Proof.
  intros Hlh. unfold juce.jlimit.
  destruct (v <? lo)%F eqn:Hlo.
  - split; [apply fleb_refl|done].
  - destruct (hi <? v)%F eqn:Hhi.
    + split; [done|apply fleb_refl].
    + split; by apply fltb_false_fleb.
Qed.

Lemma calculateSpectrumData_scope c s i :
  scope_data_ (calculateSpectrumData c s) !! i =
  if decide (i < Z.to_nat (fftSize c ÷ 2) /\ i < length (scope_data_ s))
  then Some (bin_value c
               (performFrequencyOnlyForwardTransform
                  (multiplyWithWindowingTable (fft_data_ s) (fftSize c))) i)
  else scope_data_ s !! i.
Proof. unfold calculateSpectrumData. simpl. apply bins_lookup. Qed.

Lemma calculateSpectrumData_scope_length c s :
  length (scope_data_ (calculateSpectrumData c s)) = length (scope_data_ s).
Proof. unfold calculateSpectrumData. simpl. apply bins_length. Qed.

(** C5.  After [calculateSpectrumData], bin [i] below [fftSize / 2] holds
    [dbMin] when its frequency [i * samplerate / fftSize] is below
    [lowFreq] or above [highFreq]; otherwise it holds the decibel value of
    the magnitude of the bin minus the decibel value of [fftSize], limited
    to the range from [dbMin] to [dbMax].  In both cases the value lies in
    that range. *)
Theorem C5_spectrum_bins_clamped c s i :
  (dbMin (constants c) <=? dbMax (constants c))%F = true ->
  i < Z.to_nat (fftSize c ÷ 2) ->
  i < length (scope_data_ s) ->
  let mag := performFrequencyOnlyForwardTransform
               (multiplyWithWindowingTable (fft_data_ s) (fftSize c)) in
  let hz := (samplerate c / of_int (fftSize c) * of_int (Z.of_nat i))%F in
  let db := (juce.gainToDecibels (nth i mag (lit 0))
             - juce.gainToDecibels (of_int (fftSize c)))%F in
  exists v,
    scope_data_ (calculateSpectrumData c s) !! i = Some v
    /\ v = (if (hz <? lowFreq (constants c))%F
               || (hz >? highFreq (constants c))%F
            then dbMin (constants c)
            else juce.jlimit (dbMin (constants c)) (dbMax (constants c)) db)
    /\ (dbMin (constants c) <=? v)%F = true
    /\ (v <=? dbMax (constants c))%F = true.
Proof.
  intros Hrange Hi Hlen mag hz db.
  rewrite calculateSpectrumData_scope.
  case_decide as Hd; [|lia].
  eexists. split; [done|]. unfold bin_value. fold mag hz db.
  split; [done|].
  destruct (_ || _).
  - split; [apply fleb_refl|done].
  - by apply jlimit_bounds.
Qed.


(** C10.  From a fill position below [fftSize], a block of at most
    [fftSize] samples stores only to positions below [fftSize] and leaves
    the fill position below [fftSize].  A longer block can break both: when
    the position plus the block length reaches twice [fftSize] the new fill
    position is at least [fftSize], and when it exceeds twice [fftSize]
    position [fftSize] itself is stored to. *)
Theorem C10_accumulator_bounds c s dataL :
  (0 <= pos_ s < fftSize c)%Z ->
  let sz := Z.of_nat (length dataL) in
  let out := pullData_spectrum c s dataL in
  ((sz <= fftSize c)%Z ->
     Forall (fun i => (0 <= i < fftSize c)%Z) (stored out)
     /\ (0 <= pos_ (state out) < fftSize c)%Z)
  /\ ((2 * fftSize c <= pos_ s + sz)%Z ->
      (fftSize c < sz)%Z /\ (fftSize c <= pos_ (state out))%Z)
  /\ ((2 * fftSize c < pos_ s + sz)%Z ->
      (fftSize c < sz)%Z /\ In (fftSize c) (stored out)).
Proof.
  intros Hpos sz out. unfold out, pullData_spectrum. fold sz.
  destruct (fftSize c <=? pos_ s + sz)%Z eqn:Hfill; simpl.
  - apply Z.leb_le in Hfill.
    assert (Hhead : Z.of_nat (length (take (Z.to_nat (fftSize c - pos_ s)) dataL))
                    = (fftSize c - pos_ s)%Z) by (rewrite length_take; lia).
    assert (Htail : Z.of_nat (length (drop (Z.to_nat (fftSize c - pos_ s)) dataL))
                    = (sz - (fftSize c - pos_ s))%Z) by (rewrite length_drop; lia).
    split; [|split].
    + intros Hsz. split; [|lia].
      apply Forall_forall. intros i Hi. apply list_elem_of_In in Hi.
      apply in_app_or in Hi as [Hi|Hi]; apply move_indices_spec in Hi; lia.
    + intros Hlong. lia.
    + intros Hlong. split; [lia|].
      apply in_or_app. right. apply move_indices_spec. lia.
  - apply Z.leb_gt in Hfill.
    split; [|split]; try (intros; lia).
    intros Hsz. split; [|lia].
    apply Forall_forall. intros i Hi. apply list_elem_of_In in Hi.
    apply move_indices_spec in Hi. lia.
Qed.

End SpectrumClaims.

Section StoreClaims.
  Context {F : Type} `{Arith F}.

Lemma poll_clean {P : Type} (s : ParamStore P) n :
  params_changed_ s = false -> poll n s = (repeat None n, s).
Proof.
  intros Hs. induction n as [|n IH]; [done|].
  simpl. unfold getParamsIfDirty. rewrite Hs, IH. done.
Qed.

Lemma poll_dirty {P : Type} (s : ParamStore P) n :
  params_changed_ s = true ->
  poll (S n) s =
  (Some (params_ s) :: repeat None n,
   {| params_ := params_ s; params_changed_ := false |}).
Proof.
  intros Hs. simpl. unfold getParamsIfDirty at 1. rewrite Hs.
  by rewrite poll_clean.
Qed.

(** C9.  [getParamsIfDirty] returns the parameters and clears the flag
    when the flag is set, and returns nothing and leaves the store as it
    is when the flag is clear.  After an edit of either panel, the first
    of any number of calls returns the edited parameters and every later
    call returns nothing. *)
Theorem C9_params_taken_once :
  (forall (P : Type) (s : ParamStore P),
     params_changed_ s = true ->
     getParamsIfDirty s =
     (Some (params_ s), {| params_ := params_ s; params_changed_ := false |}))
  /\ (forall (P : Type) (s : ParamStore P),
        params_changed_ s = false -> getParamsIfDirty s = (None, s))
  /\ (forall (ed : WaveformEdit F) s n,
        poll (S n) (onWaveformEdit ed s) =
        (Some (edit_waveform ed (params_ s)) :: repeat None n,
         {| params_ := edit_waveform ed (params_ s);
            params_changed_ := false |}))
  /\ (forall (ed : SpectrumEdit F) s n,
        poll (S n) (onSpectrumEdit ed s) =
        (Some (edit_spectrum ed (params_ s)) :: repeat None n,
         {| params_ := edit_spectrum ed (params_ s);
            params_changed_ := false |})).
Proof.
  split; [|split; [|split]].
  - intros P s Hs. unfold getParamsIfDirty. by rewrite Hs.
  - intros P s Hs. unfold getParamsIfDirty. by rewrite Hs.
  - intros ed s n. by rewrite poll_dirty.
  - intros ed s n. by rewrite poll_dirty.
Qed.

End StoreClaims.
End OscilloscopeFacts.

(** ** The DC filter in exact arithmetic *)

Module DcFilterFacts.
Import ExactQ ExactQFacts WaveformDisplay WaveformFacts.

Local Open Scope Q_scope.

Ltac exact_ops :=
  cbv beta iota zeta delta
    [fadd fsub fmul fdiv fabs fopp fltb fleb lit of_int Q_Arith].






(** The counter at a pixel boundary: while the incremented counter is
    below 2, taking 1.0 away leaves its fractional part. *)
Lemma counter_fraction_below_two (e : Env Q) (l : Locals Q) (s : State Q) :
  1 <= counter s + l_counterSpeed l < 2 ->
  counter (pixel_boundary e l s).1
  == Examples.fractional_remainder (counter s + l_counterSpeed l).
Proof.
  intros [Hlo Hhi]. unfold pixel_boundary. exact_ops.
  assert (Hc : Qle_bool (Qred 1) (Qred (counter s + l_counterSpeed l)) = true).
  { apply Qle_bool_iff. by rewrite !Qred_correct. }
  rewrite Hc. destruct (index s <? getWidth e)%nat; cbn [fst counter];
    rewrite !Qred_correct; unfold Examples.fractional_remainder.
  all: assert (Hfl : Qfloor (counter s + l_counterSpeed l) = 1%Z).
  all: try (apply Z.le_antisymm;
            [ apply Z.lt_succ_r; rewrite Zlt_Qlt;
              apply Qle_lt_trans with (counter s + l_counterSpeed l);
              [apply Qfloor_le|exact Hhi]
            | change 1%Z with (Qfloor 1); by apply Qfloor_resp_le ]).
  all: rewrite Hfl; reflexivity.
Qed.

Section Decay.
  Variables (e : Env Q) (l : Locals Q).
  Hypothesis HR : Qabs (l_R l) < 1.




End Decay.


End DcFilterFacts.

(** ** The DC filter outside exact arithmetic *)

Module IeeeFacts.
Import WaveformDisplay WaveformFacts Ieee IeeeExamples.

Section Run.
Context {F : Type} `{Arith F}.
Variables (e : Env F) (l : Locals F) (z : F) (P : F -> Prop).
Hypothesis Hstep : forall d, P d ->
  P (let v := (z - z + l_R l * d)%F in
     if (fabs v <? lit 1e-10)%F then lit 0 else v).


End Run.



End IeeeFacts.

(** ** The theorems at the concrete configurations *)

Module Instances.
Import ExactQ ExactQFacts Examples.

Local Open Scope Q_scope.

Section Waveform.
Import WaveformDisplay WaveformFacts DcFilterFacts.

(** C1 on a Rising display and on a Free display fed with [ex_block]. *)
Lemma C1_witness :
  (trigger_type (params_ ex_rising) = kTriggerRising
   /\ forall i j evi evj, (i < j)%nat ->
        (process_events ex_env ex_rising ex_block).2 !! i = Some evi ->
        (process_events ex_env ex_rising ex_block).2 !! j = Some evj ->
        ev_trigger evi = true -> ev_trigger evj = true ->
        (l_triggerLimit (locals ex_env (params_ ex_rising))
         <= Z.of_nat (j - i))%Z)
  /\ ((trigger_type (params_ ex_free) = kTriggerFree
       \/ trigger_type (params_ ex_free) = kTriggerInternal)
      /\ forall k ev,
           (process_events ex_env ex_free ex_block).2 !! k = Some ev ->
           ev_trigger ev = ev_fired ev).
Proof.
  split.
  - split; [reflexivity|].
    apply (proj1 (C1_rising_trigger_and_lockout ex_env ex_rising ex_block)).
    reflexivity.
  - split; [left; reflexivity|].
    apply (proj2 (C1_rising_trigger_and_lockout ex_env ex_free ex_block)).
    left. reflexivity.
Defined.


(** C3 on a Free display whose buffer is full: the trigger of the next
    sample is accepted. *)
Lemma C3_witness :
  length (peaks ex_full) = (getWidth ex_env * 2)%nat
  /\ length (copy ex_full) = (getWidth ex_env * 2)%nat
  /\ ev_trigger (sample_step ex_env ex_locals ex_full 0).2 = true
  /\ exists s3,
       index s3 = index ex_full
       /\ (sample_step ex_env ex_locals ex_full 0).1 =
          (after_trigger ex_env ex_locals (on_trigger ex_env s3)
             (ev_sample (sample_step ex_env ex_locals ex_full 0).2)).1
       /\ index (on_trigger ex_env s3) = 0%nat
       /\ counter (on_trigger ex_env s3) = lit 1
       /\ triggerLimitPhase (on_trigger ex_env s3) = 0%Z.
Proof.
  assert (H1 : length (peaks ex_full) = (getWidth ex_env * 2)%nat)
    by reflexivity.
  assert (H2 : length (copy ex_full) = (getWidth ex_env * 2)%nat)
    by reflexivity.
  assert (H3 : ev_trigger (sample_step ex_env ex_locals ex_full 0).2 = true)
    by (vm_compute; reflexivity).
  split; [exact H1|]. split; [exact H2|]. split; [exact H3|].
  destruct (C3_accepted_trigger_resets ex_env ex_locals ex_full 0 H1 H2 H3)
    as (s3 & _ & _ & Hi & Hst & _ & _ & _ & _ & Hz & Hc & _ & _ & Hp).
  exists s3. repeat split; assumption.
Defined.



(** C8 on a frozen display. *)
Lemma C8_witness :
  freeze (params_ ex_frozen) = true
  /\ process ex_env ex_frozen ex_block = ex_frozen
  /\ (process_events ex_env ex_frozen ex_block).2 = [].
Proof.
  split; [reflexivity|].
  apply (C8_freeze_changes_nothing ex_env ex_frozen ex_block). reflexivity.
Defined.

End Waveform.

Section Spectrum.
Import SpectrumDisplay Oscilloscope OscilloscopeFacts.

#[local] Instance ex_dsp_in_place : @DspInPlace Q ex_dsp.
Proof.
  split.
  - intros a n. reflexivity.
  - intros a. apply length_map.
Defined.

(** C5 on bin 1 of the eight-point configuration. *)
Lemma C5_witness :
  (dbMin (constants ex_config) <=? dbMax (constants ex_config))%F = true
  /\ (1 < Z.to_nat (fftSize ex_config ÷ 2))%nat
  /\ (1 < length (scope_data_ (ex_spectrum 0)))%nat
  /\ exists v,
       scope_data_ (@calculateSpectrumData Q _ ex_dsp ex_config (ex_spectrum 0))
         !! 1%nat = Some v
       /\ (dbMin (constants ex_config) <=? v)%F = true
       /\ (v <=? dbMax (constants ex_config))%F = true.
Proof.
  assert (H1 : (dbMin (constants ex_config) <=? dbMax (constants ex_config))%F
               = true) by reflexivity.
  assert (H2 : (1 < Z.to_nat (fftSize ex_config ÷ 2))%nat)
    by (vm_compute; lia).
  assert (H3 : (1 < length (scope_data_ (ex_spectrum 0)))%nat)
    by (vm_compute; lia).
  split; [exact H1|]. split; [exact H2|]. split; [exact H3|].
  destruct (@C5_spectrum_bins_clamped Q _ _ ex_dsp ex_config (ex_spectrum 0)
              1%nat H1 H2 H3)
    as (v & Hv & _ & Hlo & Hhi).
  exists v. repeat split; assumption.
Defined.



(** C9 on a waveform panel whose flag is set. *)
Lemma C9_witness :
  params_changed_ ex_store = true
  /\ getParamsIfDirty ex_store =
     (Some (params_ ex_store),
      {| params_ := params_ ex_store; params_changed_ := false |}).
Proof.
  split; [reflexivity|].
  apply (proj1 (@C9_params_taken_once Q)). reflexivity.
Defined.

(** C10 on a block of five samples arriving at fill position 5 of 8. *)
Lemma C10_witness :
  (0 <= pos_ (ex_spectrum 5) < fftSize ex_config)%Z
  /\ (Z.of_nat (length ex_samples) <= fftSize ex_config)%Z
  /\ Forall (fun i => (0 <= i < fftSize ex_config)%Z)
       (stored (@pullData_spectrum Q _ ex_dsp ex_config (ex_spectrum 5) ex_samples))
  /\ (0 <= pos_ (state (@pullData_spectrum Q _ ex_dsp ex_config (ex_spectrum 5)
                         ex_samples))
      < fftSize ex_config)%Z.
Proof.
  assert (H1 : (0 <= pos_ (ex_spectrum 5) < fftSize ex_config)%Z)
    by (vm_compute; split; [discriminate|reflexivity]).
  assert (H2 : (Z.of_nat (length ex_samples) <= fftSize ex_config)%Z)
    by (vm_compute; discriminate).
  split; [exact H1|]. split; [exact H2|].
  apply (proj1 (@C10_accumulator_bounds Q _ ex_dsp ex_config (ex_spectrum 5)
                  ex_samples H1) H2).
Defined.

End Spectrum.
End Instances.


(** ** More about the waveform engine *)

Module WaveformMore.
Import WaveformDisplay WaveformDisplayOps WaveformFacts.

Section Shape.
Context {F : Type} `{Arith F}.
Variables (e : Env F) (l : Locals F).

Implicit Types (s : State F) (f : F).

Lemma pairs_lookup {A : Type} (g : nat -> A) n j :
  flat_map (fun k => [g k; g k]) (seq 0 n) !! j =
  if decide (j < n * 2) then Some (g (j / 2)) else None.
Proof.
  revert j. induction n as [|n IH]; intros j.
  - cbn [seq flat_map]. rewrite lookup_nil. case_decide; [lia|done].
  - rewrite seq_S, flat_map_app. cbn [flat_map Nat.add app].
    assert (Hlen : length (flat_map (fun k => [g k; g k]) (seq 0 n)) = n * 2).
    { clear. induction n as [|n IHn]; [done|].
      rewrite seq_S, flat_map_app, length_app, IHn. simpl. lia. }
    destruct (decide (j < n * 2)) as [Hj|Hj].
    + rewrite lookup_app_l by lia. rewrite IH.
      repeat case_decide; try lia; done.
    + rewrite lookup_app_r by lia. rewrite Hlen.
      destruct (j - n * 2) as [|[|m]] eqn:Hm; cbn -[Nat.div Nat.mul].
      * case_decide; [|lia]. do 2 f_equal.
        apply Nat.div_unique with 0; lia.
      * case_decide; [|lia]. do 2 f_equal.
        apply Nat.div_unique with 1; lia.
      * case_decide; [lia|done].
Qed.

(** X1.  [resized] leaves both buffers with two points per column: the
    point at position [j] has the column number [j / 2] as its x and the
    centre line as its y, and there are no points beyond twice the width. *)
Theorem resized_buffers s j :
  peaks (resized e s) !! j =
    (if decide (j < getWidth e * 2)
     then Some {| juce.x := of_int (Z.of_nat (j / 2));
                  juce.y := centerline e |}
     else None)
  /\ copy (resized e s) !! j = peaks (resized e s) !! j
  /\ length (peaks (resized e s)) = getWidth e * 2
  /\ length (copy (resized e s)) = getWidth e * 2.
Proof.
  assert (Hlk : forall i, flat_line e !! i =
            if decide (i < getWidth e * 2)
            then Some {| juce.x := of_int (Z.of_nat (i / 2));
                         juce.y := centerline e |}
            else None).
  { intros i. unfold flat_line.
    apply (pairs_lookup (fun k => {| juce.x := of_int (Z.of_nat k);
                                     juce.y := centerline e |})). }
  assert (Hlen : length (flat_line e) = getWidth e * 2).
  { destruct (Nat.lt_trichotomy (length (flat_line e)) (getWidth e * 2))
      as [Hlt|[Heq|Hgt]]; [|done|].
    - pose proof (Hlk (length (flat_line e))) as Hl.
      rewrite (proj2 (lookup_ge_None _ _)) in Hl by lia.
      case_decide; [done|lia].
    - pose proof (Hlk (getWidth e * 2)) as Hl.
      destruct (lookup_lt_is_Some_2 (flat_line e) (getWidth e * 2) Hgt)
        as [p Hp].
      rewrite Hp in Hl. case_decide; [lia|done]. }
  simpl. by rewrite Hlk.
Qed.

Lemma set_y_keeps_x (v : F) i (pts : list (juce.Point F)) :
  map juce.x (alter (juce.set_y v) i pts) = map juce.x pts.
Proof.
  revert i. induction pts as [|p pts IH]; intros [|i]; simpl; try done.
  f_equal. apply IH.
Qed.

Lemma zero_peaks_keeps_x idx pts :
  map juce.x (zero_peaks e idx pts) = map juce.x pts.
Proof.
  unfold zero_peaks. generalize (seq idx (getWidth e - idx)). intros ks.
  revert pts. induction ks as [|k ks IH]; intros pts; [done|].
  simpl. by rewrite IH, !set_y_keeps_x.
Qed.

Lemma copy_peaks_keeps_x pks cpy :
  map juce.x (copy_peaks e pks cpy) = map juce.x cpy.
Proof.
  unfold copy_peaks. generalize (seq 0 (getWidth e * 2)). intros ks.
  revert cpy. induction ks as [|k ks IH]; intros cpy; [done|].
  simpl. rewrite IH. destruct (pks !! k); [apply set_y_keeps_x|done].
Qed.

Lemma write_column_keeps_x s :
  map juce.x (write_column e s) = map juce.x (peaks s).
Proof. unfold write_column. by rewrite !set_y_keeps_x. Qed.

Ltac step_cases :=
  unfold sample_step, until_lockout, after_trigger, pixel_boundary,
    lockout, fire;
  simpl;
  destruct (trigger_type (params_ _)) eqn:?; simpl;
  intros;
  repeat (case_match; simplify_eq/=);
  repeat match goal with
         | Ht : trigger_type ?p = _,
           Hc : context [is_free (trigger_type ?p)] |- _ =>
             rewrite Ht in Hc; simpl in Hc
         | Ht : trigger_type ?p = _,
           Hc : context [is_internal (trigger_type ?p)] |- _ =>
             rewrite Ht in Hc; simpl in Hc
         end;
  try done.

Lemma sample_step_keeps_x s f :
  map juce.x (peaks (sample_step e l s f).1) = map juce.x (peaks s)
  /\ map juce.x (copy (sample_step e l s f).1) = map juce.x (copy s).
Proof.
  step_cases;
    rewrite ?write_column_keeps_x; simpl;
    rewrite ?zero_peaks_keeps_x, ?copy_peaks_keeps_x; done.
Qed.

Lemma process_loop_keeps_x s data :
  map juce.x (peaks (process_loop e l s data).1) = map juce.x (peaks s)
  /\ map juce.x (copy (process_loop e l s data).1) = map juce.x (copy s).
Proof.
  revert s. induction data as [|f data IH]; intros s; [done|].
  rewrite process_loop_cons. simpl.
  destruct (IH (sample_step e l s f).1) as [-> ->].
  apply sample_step_keeps_x.
Qed.

Lemma sample_step_copy_kept s f :
  ev_trigger (sample_step e l s f).2 = false ->
  copy (sample_step e l s f).1 = copy s.
Proof. step_cases. Qed.

Lemma process_loop_copy_kept s data :
  Forall (fun ev => ev_trigger ev = false) (process_loop e l s data).2 ->
  copy (process_loop e l s data).1 = copy s.
Proof.
  revert s. induction data as [|f data IH]; intros s; [done|].
  rewrite process_loop_cons. simpl. intros Hall.
  apply Forall_cons in Hall as [Hf Hall].
  by rewrite (IH _ Hall), sample_step_copy_kept.
Qed.

Lemma sample_step_trigger_column s f :
  ev_trigger (sample_step e l s f).2 = true ->
  (lit 1 + l_counterSpeed l >=? lit 1)%F = true ->
  0 < getWidth e ->
  ev_wrote (sample_step e l s f).2 = true
  /\ index (sample_step e l s f).1 = 1.
Proof.
  step_cases;
    repeat match goal with
           | Hc : (_ <? _) = false |- _ => apply Nat.ltb_ge in Hc; simpl in Hc
           end; try lia; congruence.
Qed.

Lemma sample_step_fired_in_lookup s data k ev :
  (process_loop e l s data).2 !! k = Some ev ->
  exists f, ev = (sample_step e l (process_loop e l s (take k data)).1 f).2
            /\ params_ (process_loop e l s (take k data)).1 = params_ s.
Proof.
  intros Hk. rewrite process_loop_lookup in Hk.
  destruct (data !! k) as [f|]; [|done]. injection Hk as <-.
  exists f. split; [done|]. apply process_loop_params.
Qed.

Lemma sample_step_internal s f :
  trigger_type (params_ s) = kTriggerInternal ->
  ev_trigger (sample_step e l s f).2 =
    (triggerPhase s + l_triggerSpeed l >=? lit 1)%F
  /\ triggerPhase (sample_step e l s f).1 =
     if ev_trigger (sample_step e l s f).2
     then (triggerPhase s + l_triggerSpeed l - lit 1)%F
     else (triggerPhase s + l_triggerSpeed l)%F.
Proof.
  step_cases;
    match goal with
    | Hc : _ && false = true |- _ => by rewrite andb_false_r in Hc
    end.
Qed.

(** *** What the y values can be *)

Lemma until_lockout_extrema s f :
  max (until_lockout e l s f).1.1.1 = max s
  /\ min (until_lockout e l s f).1.1.1 = min s.
Proof.
  unfold until_lockout, lockout, fire. simpl.
  destruct (trigger_type (params_ s)); simpl; try done.
  by destruct (fleb _ _).
Qed.

Section Ys.
Variables (Py Pm : F -> Prop).
Hypothesis Hmap : forall m, Pm m ->
  Py (juce.jmap m (of_int (-1)) (of_int 1) (of_int (getHeight e)) (of_int 0)).
Hypothesis Hcentre : Py (centerline e).

Lemma set_y_ok (v : F) i (pts : list (juce.Point F)) :
  Py v ->
  Forall (fun p => Py (juce.y p)) pts ->
  Forall (fun p => Py (juce.y p)) (alter (juce.set_y v) i pts).
Proof. intros Hv Hpts. apply Forall_alter; [done|]. by intros p _ _. Qed.

Lemma zero_peaks_ok idx pts :
  Forall (fun p => Py (juce.y p)) pts ->
  Forall (fun p => Py (juce.y p)) (zero_peaks e idx pts).
Proof.
  unfold zero_peaks. generalize (seq idx (getWidth e - idx)). intros ks.
  revert pts. induction ks as [|k ks IH]; intros pts Hpts; [done|].
  cbn [foldl]. apply IH.
  apply set_y_ok; [done|]. by apply set_y_ok.
Qed.

Lemma copy_peaks_ok pks cpy :
  Forall (fun p => Py (juce.y p)) pks ->
  Forall (fun p => Py (juce.y p)) cpy ->
  Forall (fun p => Py (juce.y p)) (copy_peaks e pks cpy).
Proof.
  intros Hpks. unfold copy_peaks.
  generalize (seq 0 (getWidth e * 2)). intros ks.
  revert cpy. induction ks as [|k ks IH]; intros cpy Hcpy; [done|].
  cbn [foldl]. apply IH. destruct (pks !! k) as [p|] eqn:Hp; [|done].
  apply set_y_ok; [|done].
  apply (Forall_lookup_1 _ _ _ _ Hpks Hp).
Qed.

Lemma on_trigger_ok s : ys_ok Py Pm s -> ys_ok Py Pm (on_trigger e s).
Proof.
  intros (Hpk & Hcp & _ & _). unfold ys_ok. simpl.
  split; [by apply zero_peaks_ok|].
  split; [apply copy_peaks_ok; [by apply zero_peaks_ok|done]|].
  split; by right.
Qed.

Lemma track_extrema_ok s sample :
  Pm sample ->
  (sample >? flt_lowest)%F = true ->
  (sample <? flt_max)%F = true ->
  ys_ok Py Pm s ->
  Pm (max (track_extrema s sample)) /\ Pm (min (track_extrema s sample))
  /\ Forall (fun p => Py (juce.y p)) (peaks (track_extrema s sample))
  /\ Forall (fun p => Py (juce.y p)) (copy (track_extrema s sample)).
Proof.
  intros Hx Hlow Hhigh (Hpk & Hcp & Hmax & Hmin). cbn [track_extrema max min
    peaks copy].
  split; [|split; [|done]].
  - destruct (sample >? max s)%F eqn:Hc; [done|].
    destruct Hmax as [Hmax|Hmax]; [done|]. by rewrite Hmax, Hlow in Hc.
  - destruct (sample <? min s)%F eqn:Hc; [done|].
    destruct Hmin as [Hmin|Hmin]; [done|]. by rewrite Hmin, Hhigh in Hc.
Qed.

Lemma pixel_boundary_ok s :
  Pm (max s) -> Pm (min s) ->
  Forall (fun p => Py (juce.y p)) (peaks s) ->
  Forall (fun p => Py (juce.y p)) (copy s) ->
  ys_ok Py Pm (pixel_boundary e l s).1.
Proof.
  intros Hmax Hmin Hpk Hcp. unfold pixel_boundary, ys_ok.
  destruct (fleb _ _); simpl.
  - destruct (index s <? getWidth e); simpl.
    + split; [|split; [done|split; by right]].
      unfold write_column.
      apply set_y_ok; [destruct (lastIsMax s); by apply Hmap|].
      apply set_y_ok; [destruct (lastIsMax s); by apply Hmap|done].
    + split; [done|split; [done|split; by right]].
  - split; [done|split; [done|split; by left]].
Qed.

Lemma sample_step_ok s f :
  takes_part Pm (ev_sample (sample_step e l s f).2) ->
  ys_ok Py Pm s -> ys_ok Py Pm (sample_step e l s f).1.
Proof.
  intros (Hx & Hlow & Hhigh) Hs.
  pose proof (sample_step_factors e l s f) as Hf.
  pose proof (until_lockout_buffers e l s f) as (Hb1 & Hb2 & _).
  pose proof (until_lockout_extrema s f) as (Hb3 & Hb4).
  destruct (until_lockout e l s f) as [[[s3 sample] fired] trigger].
  simpl in Hb1, Hb2, Hb3, Hb4.
  destruct Hf as (Hsm & _ & -> & _). rewrite Hsm in Hx, Hlow, Hhigh.
  assert (Hs3 : ys_ok Py Pm s3).
  { unfold ys_ok. by rewrite Hb1, Hb2, Hb3, Hb4. }
  assert (Hs4 : ys_ok Py Pm (if trigger then on_trigger e s3 else s3)).
  { destruct trigger; [by apply on_trigger_ok|done]. }
  destruct (track_extrema_ok _ _ Hx Hlow Hhigh Hs4)
    as (Hmax & Hmin & Hpk & Hcp).
  unfold after_trigger.
  pose proof (pixel_boundary_ok _ Hmax Hmin Hpk Hcp) as Hok.
  by destruct (pixel_boundary e l _).
Qed.

Lemma process_loop_ok data : forall s,
  Forall (fun ev => takes_part Pm (ev_sample ev))
         (process_loop e l s data).2 ->
  ys_ok Py Pm s -> ys_ok Py Pm (process_loop e l s data).1.
Proof.
  induction data as [|f data IH]; intros s Hev Hs; [done|].
  rewrite process_loop_cons in Hev |- *. cbn [fst snd] in Hev |- *.
  apply Forall_cons in Hev as [Hev1 Hev].
  apply IH; [done|]. by apply sample_step_ok.
Qed.

End Ys.

End Shape.

Section Properties.
Context {F : Type} `{Arith F}.

Implicit Types (e : Env F) (s : State F) (data : list F).

(** X2.  [process] keeps the shape that [resized] gave the buffers: both
    keep their length and the x of every point, only y values change; the
    parameters are untouched; and a write index that is at most the width
    stays at most the width. *)
Theorem process_keeps_buffer_shape e s data :
  length (peaks (process e s data)) = length (peaks s)
  /\ length (copy (process e s data)) = length (copy s)
  /\ map juce.x (peaks (process e s data)) = map juce.x (peaks s)
  /\ map juce.x (copy (process e s data)) = map juce.x (copy s)
  /\ params_ (process e s data) = params_ s
  /\ (index s <= getWidth e -> index (process e s data) <= getWidth e).
Proof.
  unfold process, process_events. destruct (freeze (params_ s)); simpl.
  { repeat split; done. }
  destruct (process_loop_lengths e (locals e (params_ s)) s data) as [? ?].
  destruct (process_loop_keeps_x e (locals e (params_ s)) s data) as [? ?].
  repeat split; try done.
  - apply process_loop_params.
  - apply process_loop_index_bound.
Qed.

(** X3.  With trigger mode Falling, [process] records a trigger only at a
    sample whose gained value is at most the trigger level while the sample
    before it was above the level, and two recorded triggers are at least
    [triggerLimit] samples apart. *)
Theorem falling_trigger_and_lockout e s data :
  trigger_type (params_ s) = kTriggerFalling ->
  let evs := (process_events e s data).2 in
  let level := triggerLevel (params_ s) in
  let limit := l_triggerLimit (locals e (params_ s)) in
  (forall k ev, evs !! k = Some ev -> ev_trigger ev = true ->
     (ev_sample ev <=? level)%F = true
     /\ (ev_previous ev >? level)%F = true)
  /\ (forall i j evi evj, i < j ->
        evs !! i = Some evi -> evs !! j = Some evj ->
        ev_trigger evi = true -> ev_trigger evj = true ->
        (limit <= Z.of_nat (j - i))%Z).
Proof.
  intros Hty. unfold process_events. destruct (freeze (params_ s)); simpl.
  { split; intros; done. }
  split.
  - intros k ev Hk Htr.
    destruct (sample_step_fired_in_lookup _ _ _ _ _ _ Hk) as (f & -> & Hp).
    apply sample_step_accepted_fired in Htr.
    rewrite sample_step_fired_falling in Htr by (by rewrite Hp).
    apply andb_true_iff in Htr as [Hle Hgt].
    by rewrite sample_step_ev_previous.
  - intros i j evi evj. apply loop_trigger_distance; by rewrite Hty.
Qed.

(** X4.  The sync copy changes only at an accepted trigger: a block none
    of whose samples triggers leaves the copy exactly as it was, whatever
    is written to the buffer meanwhile. *)
Theorem sync_copy_kept_between_triggers e s data :
  Forall (fun ev => ev_trigger ev = false) (process_events e s data).2 ->
  copy (process e s data) = copy s.
Proof.
  unfold process, process_events. destruct (freeze (params_ s)); simpl.
  - done.
  - apply process_loop_copy_kept.
Qed.

(** X5.  An accepted trigger starts the sweep with its own sample: when
    the column counter of 1.0 plus [counterSpeed] is at least 1.0 and the
    display has a column at all, the iteration that accepts a trigger
    writes column 0 and leaves the write index at 1. *)
Theorem accepted_trigger_writes_first_column e s data k ev :
  (lit 1 + counterSpeed (params_ s) >=? lit 1)%F = true ->
  0 < getWidth e ->
  (process_events e s data).2 !! k = Some ev ->
  ev_trigger ev = true ->
  ev_wrote ev = true /\ index (process e s (take (S k) data)) = 1.
Proof.
  intros Hcs Hw. unfold process, process_events.
  destruct (freeze (params_ s)); simpl; [done|].
  intros Hk Htr. rewrite process_loop_lookup in Hk.
  destruct (data !! k) as [f|] eqn:Hf; [|done]. injection Hk as <-.
  rewrite (process_loop_take_S _ _ _ _ _ _ Hf).
  by apply sample_step_trigger_column.
Qed.

(** X6.  Blocks compose: processing one block and then another gives the
    state that processing their concatenation gives. *)
Theorem process_blocks_compose e s d1 d2 :
  process e (process e s d1) d2 = process e s (d1 ++ d2).
Proof.
  unfold process. by rewrite process_events_app.
Qed.

(** X11.  [process] keeps every y value inside the component, as long as
    no sample is a NaN.  Stated for any carrier, any set [Pm] of sample
    values and any set [Py] of y values such that the scaling to the
    height maps [Pm] into [Py] and the centre line is in [Py] (for numbers:
    the samples from -1 to 1 and the y values from 0 to the height): when
    the y values of both buffers are in [Py] and each running extremum is
    in [Pm] or freshly reset, and every gained sample of the block is in
    [Pm] and compares above [lowest()] and below [max()], then the same
    holds after the block. *)
Theorem y_values_stay_in_component e s data (Py Pm : F -> Prop) :
  (forall m, Pm m ->
     Py (juce.jmap m (of_int (-1)) (of_int 1)
                   (of_int (getHeight e)) (of_int 0))) ->
  Py (centerline e) ->
  Forall (fun ev => takes_part Pm (ev_sample ev)) (process_events e s data).2 ->
  ys_ok Py Pm s ->
  ys_ok Py Pm (process e s data).
Proof.
  intros Hmap Hcentre. unfold process, process_events.
  destruct (freeze (params_ s)); [done|]. cbn [fst].
  by apply process_loop_ok.
Qed.

End Properties.

Section Ignored.
Context {F : Type} `{Arith F}.

Implicit Types (e : Env F) (s : State F) (data : list F).

(** Two runs agree when their locals and parameters differ only in what
    the trigger mode does not read; stage by stage. *)
Lemma gained_swap (l1 l2 : Locals F) s (p2 : Parameters F) f :
  l_gain l1 = l_gain l2 ->
  dc_kill (params_ s) = dc_kill p2 ->
  gained l2 (setParameters p2 s) f = gained l1 s f.
Proof. intros Hg Hdc. unfold gained. simpl. by rewrite Hg, Hdc. Qed.

Lemma dc_filter_swap (l1 l2 : Locals F) s (p2 : Parameters F) f :
  l_R l1 = l_R l2 ->
  dc_filter l2 (setParameters p2 s) f = setParameters p2 (dc_filter l1 s f).
Proof. intros HR. unfold dc_filter, setParameters. simpl. by rewrite HR. Qed.

Lemma fire_swap e (l1 l2 : Locals F) s (p2 : Parameters F) sample :
  trigger_type (params_ s) = trigger_type p2 ->
  (is_internal (trigger_type p2) = true ->
   l_triggerSpeed l1 = l_triggerSpeed l2) ->
  (is_free (trigger_type p2) = false ->
   is_internal (trigger_type p2) = false ->
   l_triggerLevel l1 = l_triggerLevel l2
   /\ l_triggerLimit l1 = l_triggerLimit l2) ->
  fire e l2 (setParameters p2 s) sample =
  (setParameters p2 (fire e l1 s sample).1, (fire e l1 s sample).2).
Proof.
  intros Hty Hsp Hlv. unfold fire. cbn [params_ setParameters].
  rewrite <- Hty in *. destruct (trigger_type (params_ s)); simpl in *.
  - done.
  - by destruct (Hlv eq_refl eq_refl) as [-> _].
  - by destruct (Hlv eq_refl eq_refl) as [-> _].
  - rewrite (Hsp eq_refl). by destruct (fleb _ _).
Qed.

Lemma fire_params e (l : Locals F) s sample :
  params_ (fire e l s sample).1 = params_ s.
Proof.
  unfold fire. destruct (trigger_type (params_ s)); try done.
  by destruct (fleb _ _).
Qed.

Lemma lockout_swap (l1 l2 : Locals F) s (p2 : Parameters F) trigger :
  trigger_type (params_ s) = trigger_type p2 ->
  (is_free (trigger_type p2) = false ->
   is_internal (trigger_type p2) = false ->
   l_triggerLevel l1 = l_triggerLevel l2
   /\ l_triggerLimit l1 = l_triggerLimit l2) ->
  lockout l2 (setParameters p2 s) trigger =
  (setParameters p2 (lockout l1 s trigger).1, (lockout l1 s trigger).2).
Proof.
  intros Hty Hlv. unfold lockout. cbn [params_ setParameters fst snd].
  rewrite <- Hty in *. f_equal.
  destruct (is_free (trigger_type (params_ s))) eqn:Hf;
    [by rewrite !andb_false_r|].
  destruct (is_internal (trigger_type (params_ s))) eqn:Hi;
    [by rewrite !andb_false_r|].
  destruct (Hlv eq_refl eq_refl) as [_ Hlm]. simpl. by rewrite Hlm.
Qed.

Lemma pixel_boundary_swap e (l1 l2 : Locals F) s (p2 : Parameters F) :
  l_counterSpeed l1 = l_counterSpeed l2 ->
  pixel_boundary e l2 (setParameters p2 s) =
  (setParameters p2 (pixel_boundary e l1 s).1, (pixel_boundary e l1 s).2).
Proof.
  intros Hc. unfold pixel_boundary. cbn [counter index setParameters].
  rewrite Hc. destruct (fleb _ _); [|done].
  by destruct (index s <? getWidth e).
Qed.

Lemma sample_step_swap e (l1 l2 : Locals F) s (p2 : Parameters F) f :
  l_gain l1 = l_gain l2 ->
  l_counterSpeed l1 = l_counterSpeed l2 ->
  l_R l1 = l_R l2 ->
  dc_kill (params_ s) = dc_kill p2 ->
  trigger_type (params_ s) = trigger_type p2 ->
  (is_internal (trigger_type p2) = true ->
   l_triggerSpeed l1 = l_triggerSpeed l2) ->
  (is_free (trigger_type p2) = false ->
   is_internal (trigger_type p2) = false ->
   l_triggerLevel l1 = l_triggerLevel l2
   /\ l_triggerLimit l1 = l_triggerLimit l2) ->
  sample_step e l2 (setParameters p2 s) f =
  (setParameters p2 (sample_step e l1 s f).1, (sample_step e l1 s f).2).
Proof.
  intros Hg Hc HR Hdc Hty Hsp Hlv.
  unfold sample_step, until_lockout, after_trigger.
  rewrite (dc_filter_swap l1 l2 s p2 f HR).
  rewrite (gained_swap l1 l2 (dc_filter l1 s f) p2 f Hg Hdc).
  rewrite (fire_swap e l1 l2 (dc_filter l1 s f) p2 _ Hty Hsp Hlv).
  destruct (fire e l1 (dc_filter l1 s f) (gained l1 (dc_filter l1 s f) f))
    as [s2 fired] eqn:Hfire. cbn [fst snd].
  assert (Hty2 : trigger_type (params_ s2) = trigger_type p2).
  { replace s2 with (fire e l1 (dc_filter l1 s f)
                       (gained l1 (dc_filter l1 s f) f)).1
      by (by rewrite Hfire).
    by rewrite fire_params. }
  rewrite (lockout_swap l1 l2 s2 p2 fired Hty2 Hlv).
  destruct (lockout l1 s2 fired) as [s3 trigger]. cbn [fst snd].
  assert (Htrig : (if trigger then on_trigger e (setParameters p2 s3)
                   else setParameters p2 s3)
                  = setParameters p2 (if trigger then on_trigger e s3 else s3))
    by (by destruct trigger).
  rewrite Htrig.
  set (s4 := if trigger then on_trigger e s3 else s3).
  change (track_extrema (setParameters p2 s4)
            (gained l1 (dc_filter l1 s f) f))
    with (setParameters p2
            (track_extrema s4 (gained l1 (dc_filter l1 s f) f))).
  rewrite (pixel_boundary_swap e l1 l2 _ p2 Hc).
  by destruct (pixel_boundary e l1 _).
Qed.

Lemma process_loop_swap e (l1 l2 : Locals F) (p2 : Parameters F) data :
  l_gain l1 = l_gain l2 ->
  l_counterSpeed l1 = l_counterSpeed l2 ->
  l_R l1 = l_R l2 ->
  (is_internal (trigger_type p2) = true ->
   l_triggerSpeed l1 = l_triggerSpeed l2) ->
  (is_free (trigger_type p2) = false ->
   is_internal (trigger_type p2) = false ->
   l_triggerLevel l1 = l_triggerLevel l2
   /\ l_triggerLimit l1 = l_triggerLimit l2) ->
  forall s,
    dc_kill (params_ s) = dc_kill p2 ->
    trigger_type (params_ s) = trigger_type p2 ->
    process_loop e l2 (setParameters p2 s) data =
    (setParameters p2 (process_loop e l1 s data).1,
     (process_loop e l1 s data).2).
Proof.
  intros Hg Hc HR Hsp Hlv.
  induction data as [|f data IH]; intros s Hdc Hty; [done|].
  rewrite !process_loop_cons.
  rewrite (sample_step_swap e l1 l2 s p2 f Hg Hc HR Hdc Hty Hsp Hlv).
  cbn [fst snd].
  rewrite IH by (by rewrite sample_step_params). done.
Qed.

Lemma process_events_swap e (p1 p2 : Parameters F) s data :
  freeze p1 = freeze p2 ->
  dc_kill p1 = dc_kill p2 ->
  trigger_type p1 = trigger_type p2 ->
  l_gain (locals e p1) = l_gain (locals e p2) ->
  l_counterSpeed (locals e p1) = l_counterSpeed (locals e p2) ->
  (is_internal (trigger_type p2) = true ->
   l_triggerSpeed (locals e p1) = l_triggerSpeed (locals e p2)) ->
  (is_free (trigger_type p2) = false ->
   is_internal (trigger_type p2) = false ->
   l_triggerLevel (locals e p1) = l_triggerLevel (locals e p2)
   /\ l_triggerLimit (locals e p1) = l_triggerLimit (locals e p2)) ->
  process_events e (setParameters p2 s) data =
  (setParameters p2 (process_events e (setParameters p1 s) data).1,
   (process_events e (setParameters p1 s) data).2).
Proof.
  intros Hfr Hdc Hty Hg Hc Hsp Hlv.
  unfold process_events. cbn [params_ setParameters].
  rewrite <- Hfr. destruct (freeze p1); [done|].
  change (setParameters p2 s) with (setParameters p2 (setParameters p1 s)).
  by apply process_loop_swap.
Qed.

(** X8.  The trigger speed dial matters to the Internal trigger only: in
    the other three modes, [process] with any other value of the dial
    records the same triggers and column writes and leaves the same state,
    the stored dial value apart. *)
Theorem trigger_speed_ignored e (p : Parameters F) (value : F) s data :
  is_internal (trigger_type p) = false ->
  let p' := Oscilloscope.edit_waveform (Oscilloscope.SetTriggerSpeed value) p in
  process_events e (setParameters p' s) data =
  (setParameters p' (process_events e (setParameters p s) data).1,
   (process_events e (setParameters p s) data).2).
Proof.
  intros Hty p'. apply process_events_swap; try done.
  all: unfold p'; simpl; try (by rewrite Hty); try (by intros _ _).
Qed.

(** X9.  The trigger level and the retrigger limit matter to the edge
    triggers only: in Free and in Internal mode, [process] with any other
    value of either dial records the same triggers and column writes and
    leaves the same state, the stored dial value apart. *)
Theorem trigger_level_and_limit_ignored e (p : Parameters F)
    (ed : Oscilloscope.WaveformEdit F) (value : F) s data :
  is_free (trigger_type p) = true \/ is_internal (trigger_type p) = true ->
  ed = Oscilloscope.SetTriggerLevel value
  \/ ed = Oscilloscope.SetTriggerLimit value ->
  let p' := Oscilloscope.edit_waveform ed p in
  process_events e (setParameters p' s) data =
  (setParameters p' (process_events e (setParameters p s) data).1,
   (process_events e (setParameters p s) data).2).
Proof.
  intros Hty Hed p'.
  apply process_events_swap; unfold p';
    destruct Hed as [-> | ->]; simpl; try done.
  all: intros Hf Hi; destruct Hty as [Hty|Hty]; congruence.
Qed.

End Ignored.

Section Clamp.
Context {F : Type} `{Arith F}.

Lemma jlimit_not_outside (lo hi v : F) :
  (lo <? lo)%F = false -> (hi <? hi)%F = false -> (hi <? lo)%F = false ->
  (juce.jlimit lo hi v <? lo)%F = false
  /\ (hi <? juce.jlimit lo hi v)%F = false.
Proof.
  intros Hlo Hhi Hhl. unfold juce.jlimit.
  destruct (v <? lo)%F eqn:Hv; [done|].
  by destruct (hi <? v)%F eqn:Hw.
Qed.

(** X7.  No sample that the trigger and the decimation see compares below
    -1 or above 1, whatever the input and the gain.  This holds on every
    carrier on which -1 is not below itself, 1 is not below itself and 1 is
    not below -1, which includes IEEE arithmetic; there a NaN, which
    compares below and above nothing, is let through by the clamp. *)
Theorem samples_are_clamped (e : Env F) (s : State F) (data : list F) k ev :
  (lit (-1) <? lit (-1))%F = false ->
  (lit 1 <? lit 1)%F = false ->
  (lit 1 <? lit (-1))%F = false ->
  (process_events e s data).2 !! k = Some ev ->
  (ev_sample ev <? lit (-1))%F = false /\ (lit 1 <? ev_sample ev)%F = false.
Proof.
  intros Hlo Hhi Hhl. unfold process_events.
  destruct (freeze (params_ s)); simpl; [done|].
  intros Hk. apply loop_sample_gained in Hk as [x ->].
  by apply jlimit_not_outside.
Qed.

End Clamp.
End WaveformMore.

(** ** The waveform engine in exact arithmetic *)

Module ExactMore.
Import ExactQ ExactQFacts WaveformDisplay WaveformDisplayOps WaveformFacts.
Import WaveformMore DcFilterFacts.

Local Open Scope Q_scope.

(** *** The internal oscillator *)

Lemma Qfloor_between (x : Q) (n : Z) :
  inject_Z n <= x -> x < inject_Z (n + 1) -> Qfloor x = n.
Proof.
  intros Hlo Hhi. apply Z.le_antisymm.
  - apply Z.lt_succ_r. rewrite Zlt_Qlt.
    apply Qle_lt_trans with x; [apply Qfloor_le|exact Hhi].
  - rewrite <- (Qfloor_Z n). by apply Qfloor_resp_le.
Qed.

Section Osc.
Variables (e : Env Q) (l : Locals Q).
Hypothesis Hsp : 0 <= l_triggerSpeed l < 1.

Lemma internal_step (s : State Q) f :
  trigger_type (params_ s) = kTriggerInternal ->
  0 <= triggerPhase s < 1 ->
  0 <= triggerPhase (sample_step e l s f).1 < 1
  /\ triggerPhase (sample_step e l s f).1
     + (if ev_trigger (sample_step e l s f).2 then 1 else 0)
     == triggerPhase s + l_triggerSpeed l.
Proof.
  intros Hty Hph.
  destruct (sample_step_internal e l s f Hty) as [Htr Hp].
  rewrite Hp, Htr. clear Hp Htr. exact_ops.
  destruct (Qle_bool (Qred 1) (Qred (triggerPhase s + l_triggerSpeed l)))
    eqn:Hc.
  - apply Qle_bool_iff in Hc. rewrite !Qred_correct in Hc.
    rewrite !Qred_correct. split; lra.
  - assert (Hlt : triggerPhase s + l_triggerSpeed l < 1).
    { apply Qnot_le_lt. intros Hle. apply not_true_iff_false in Hc.
      apply Hc. apply Qle_bool_iff. by rewrite !Qred_correct. }
    rewrite !Qred_correct. split; lra.
Qed.

Lemma internal_loop data : forall s : State Q,
  trigger_type (params_ s) = kTriggerInternal ->
  0 <= triggerPhase s < 1 ->
  0 <= triggerPhase (process_loop e l s data).1 < 1
  /\ triggerPhase (process_loop e l s data).1
     + inject_Z (Z.of_nat (triggers_accepted (process_loop e l s data).2))
     == triggerPhase s + inject_Z (Z.of_nat (length data)) * l_triggerSpeed l.
Proof.
  induction data as [|f data IH]; intros s Hty Hph.
  - cbn [process_loop fst snd triggers_accepted length]. split; [done|].
    change (inject_Z (Z.of_nat 0)) with 0. lra.
  - rewrite process_loop_cons. cbn [fst snd triggers_accepted length].
    destruct (internal_step s f Hty Hph) as [Hr Heq].
    destruct (IH (sample_step e l s f).1) as [Hr' Heq'];
      [by rewrite sample_step_params|done|].
    split; [done|].
    rewrite Nat2Z.inj_add, inject_Z_plus, Nat2Z.inj_succ, <- Z.add_1_r,
      inject_Z_plus.
    change (inject_Z 1) with 1.
    assert (Hb : inject_Z (Z.of_nat (if ev_trigger (sample_step e l s f).2
                                     then 1%nat else 0%nat))
                 == (if ev_trigger (sample_step e l s f).2 then 1 else 0)).
    { by destruct (ev_trigger _). }
    rewrite Hb. lra.
Qed.

End Osc.

(** X10.  The Internal trigger is a phase accumulator: from a phase in
    [0, 1) and with a speed in [0, 1), a run of [n] samples accepts as many
    triggers as the whole part of (phase + n * speed), whatever the audio
    is, and leaves the fractional part as the phase. *)
Theorem internal_trigger_count (e : Env Q) (l : Locals Q) (s : State Q)
    (data : list Q) :
  0 <= l_triggerSpeed l < 1 ->
  trigger_type (params_ s) = kTriggerInternal ->
  0 <= triggerPhase s < 1 ->
  let total := triggerPhase s
               + inject_Z (Z.of_nat (length data)) * l_triggerSpeed l in
  Z.of_nat (triggers_accepted (process_loop e l s data).2) = Qfloor total
  /\ triggerPhase (process_loop e l s data).1
     == total - inject_Z (Qfloor total).
Proof.
  intros Hsp Hty Hph total.
  destruct (internal_loop e l Hsp data s Hty Hph) as [Hr Heq].
  fold total in Heq.
  set (n := Z.of_nat (triggers_accepted (process_loop e l s data).2)) in *.
  assert (Hfl : Qfloor total = n).
  { apply Qfloor_between; [lra|]. rewrite inject_Z_plus.
    change (inject_Z 1) with 1. lra. }
  split; [done|]. rewrite Hfl. lra.
Qed.

(** *** The y values *)

Lemma jmap_in_component (h : Z) (m : Q) :
  (0 <= h)%Z -> -1 <= m <= 1 ->
  0 <= juce.jmap m (of_int (-1)) (of_int 1) (of_int h) (of_int 0)
    <= inject_Z h.
Proof.
  intros Hh Hm. unfold juce.jmap. exact_ops. rewrite !Qred_correct.
  assert (Hh' : 0 <= inject_Z h).
  { change 0 with (inject_Z 0). by rewrite <- Zle_Qle. }
  set (hq := inject_Z h) in *.
  assert (Heq : hq + (inject_Z 0 - hq) * (m - inject_Z (-1))
                     / (inject_Z 1 - inject_Z (-1))
                == hq * (1 - m) * (1 # 2)) by (unfold inject_Z; field).
  rewrite Heq.
  assert (0 <= hq * (1 - m)) by (apply Qmult_le_0_compat; lra).
  assert ((1 - m) * hq <= 2 * hq) by (apply Qmult_le_compat_r; lra).
  split; lra.
Qed.

(** *** What is painted *)




Section Lines.
Variables (points : list (juce.Point Q)) (d lo hi : Q).
Hypothesis Hd : 0 <= d <= 1.
Hypothesis Hys : Forall (fun p => lo <= juce.y p <= hi) points.


End Lines.


End ExactMore.

(** ** More about the scope: blocks, published data and redraw ticks *)

Module OscilloscopeMore.
Import SpectrumDisplay SpectrumDisplayOps Oscilloscope OscilloscopeOps.
Import OscilloscopeFacts.

Section Blocks.
Context {F : Type} `{Arith F} `{!Dsp F}.

Implicit Types (c : Config F) (s : State F).

Lemma pullData_spectrum_position c s dataL :
  (0 < fftSize c)%Z ->
  (0 <= pos_ s < fftSize c)%Z ->
  (Z.of_nat (length dataL) <= fftSize c)%Z ->
  pos_ (state (pullData_spectrum c s dataL))
  = ((pos_ s + Z.of_nat (length dataL)) mod fftSize c)%Z
  /\ Z.of_nat (passes (pullData_spectrum c s dataL))
     = ((pos_ s + Z.of_nat (length dataL)) / fftSize c)%Z.
Proof.
  intros Hn Hpos Hsz. unfold pullData_spectrum.
  destruct (fftSize c <=? _)%Z eqn:Hc; cbn [state passes pos_].
  - apply Z.leb_le in Hc.
    assert (Hq : ((pos_ s + Z.of_nat (length dataL)) / fftSize c = 1)%Z).
    { symmetry. apply (Z.div_unique_pos _ _ 1
        (pos_ s + Z.of_nat (length dataL) - fftSize c)); lia. }
    split; [|by rewrite Hq].
    rewrite Z.mod_eq by lia. rewrite Hq. lia.
  - apply Z.leb_gt in Hc. rewrite Z.mod_small, Z.div_small by lia. done.
Qed.

(** X13.  Over any run of blocks of at most [fftSize] samples each, the
    accumulator counts samples modulo [fftSize]: the fill position ends at
    (position + samples) mod [fftSize], and the number of FFT passes that
    ran is (position + samples) / [fftSize]; how the samples are cut into
    blocks does not matter to either. *)
Theorem spectrum_blocks_position_and_passes c blocks : forall s,
  (0 < fftSize c)%Z ->
  (0 <= pos_ s < fftSize c)%Z ->
  Forall (fun b => (Z.of_nat (length b) <= fftSize c)%Z) blocks ->
  pos_ (pull_blocks c s blocks).1
  = ((pos_ s + total_length blocks) mod fftSize c)%Z
  /\ Z.of_nat (pull_blocks c s blocks).2
     = ((pos_ s + total_length blocks) / fftSize c)%Z.
Proof.
  induction blocks as [|b blocks IH]; intros s Hn Hpos Hall.
  - cbn. rewrite Z.add_0_r, Z.mod_small, Z.div_small by lia. done.
  - apply Forall_cons in Hall as [Hb Hall].
    destruct (pullData_spectrum_position c s b Hn Hpos Hb) as [Hp Hq].
    cbn [pull_blocks total_length foldr].
    fold (total_length blocks).
    destruct (pull_blocks c (state (pullData_spectrum c s b)) blocks)
      as [s' n] eqn:Hrest.
    specialize (IH (state (pullData_spectrum c s b)) Hn).
    rewrite Hrest in IH. cbn [fst snd] in IH |- *.
    destruct IH as [IHp IHq]; [|done|].
    { rewrite Hp. by apply Z.mod_pos_bound. }
    rewrite Hp in IHp, IHq. rewrite IHp, Nat2Z.inj_add, Hq, IHq.
    set (a := (pos_ s + Z.of_nat (length b))%Z).
    set (t := total_length blocks).
    replace (pos_ s + (Z.of_nat (length b) + t))%Z with (a + t)%Z by lia.
    split.
    + by rewrite Zplus_mod_idemp_l.
    + replace (a + t)%Z
        with (a / fftSize c * fftSize c + (a mod fftSize c + t))%Z
        by (pose proof (Z.div_mod a (fftSize c)); lia).
      rewrite Z.div_add_l by lia. done.
Qed.

End Blocks.

Section Range.
Context {F : Type} `{ArithOrder F} `{!Dsp F}.

Implicit Types (c : Config F) (s : State F).

Lemma bin_value_in_range c mag i :
  (dbMin (constants c) <=? dbMax (constants c))%F = true ->
  in_range (constants c) (bin_value c mag i).
Proof.
  intros Hr. unfold bin_value, in_range.
  destruct (_ || _).
  - split; [apply fleb_refl|done].
  - by apply jlimit_bounds.
Qed.

Lemma pullData_spectrum_in_range c s dataL :
  (dbMin (constants c) <=? dbMax (constants c))%F = true ->
  length (scope_data_ s) <= Z.to_nat (fftSize c ÷ 2) ->
  Forall (in_range (constants c)) (new_scope_data_ s) ->
  length (scope_data_ (state (pullData_spectrum c s dataL)))
    = length (scope_data_ s)
  /\ Forall (in_range (constants c))
            (new_scope_data_ (state (pullData_spectrum c s dataL))).
Proof.
  intros Hr Hlen Hnew. unfold pullData_spectrum.
  destruct (fftSize c <=? _)%Z; cbn [state scope_data_ new_scope_data_];
    [|done].
  split; [by rewrite calculateSpectrumData_scope_length|].
  apply Forall_lookup. intros j v. unfold updateScopeData.
  change 0%Z with (Z.of_nat 0). rewrite move_range_lookup.
  case_decide as Hj.
  - rewrite Nat.sub_0_r, calculateSpectrumData_scope.
    rewrite calculateSpectrumData_scope_length in Hj.
    cbn [scope_data_] in Hj |- *.
    case_decide as Hb; [|lia]. intros [= <-]. by apply bin_value_in_range.
  - unfold calculateSpectrumData. cbn [new_scope_data_].
    intros Hv. by eapply (proj1 (Forall_lookup _ _)) in Hv.
Qed.

(** X14.  What the spectrum display is given stays in range: when the
    published data lies between [dbMin] and [dbMax] and the bin array has
    at most [fftSize / 2] entries, the published data lies in that range
    after any run of iterations of the data loop, in either mode and with
    any channel selection. *)
Theorem published_bins_stay_in_range (e : WaveformDisplay.Env F) c datas :
  forall o : Scope F,
  (dbMin (constants c) <=? dbMax (constants c))%F = true ->
  length (scope_data_ (spectrum_data_ o)) <= Z.to_nat (fftSize c ÷ 2) ->
  Forall (in_range (constants c)) (new_scope_data_ (spectrum_data_ o)) ->
  Forall (in_range (constants c))
         (new_scope_data_ (spectrum_data_ (pull_all e c datas o))).
Proof.
  intros o Hr. revert o. unfold pull_all.
  induction datas as [|d datas IH]; intros o Hlen Hnew; [done|].
  cbn [foldl].
  assert (Hstep : length (scope_data_ (spectrum_data_ (dispatch e c d o)))
                  = length (scope_data_ (spectrum_data_ o))
                  /\ Forall (in_range (constants c))
                       (new_scope_data_ (spectrum_data_ (dispatch e c d o)))).
  { unfold dispatch. destruct d.1; [done|].
    destruct (is_off _); [done|].
    destruct (scope_mode_ o); cbn [spectrum_data_]; [done|].
    by apply pullData_spectrum_in_range. }
  destruct Hstep as [Hl Hn]. apply IH; [by rewrite Hl|done].
Qed.

End Range.

Section Ticks.
Context {F : Type} `{Arith F} `{!Dsp F}.

(** X15.  A redraw tick settles: a second [updateDrawing] with no edit in
    between changes nothing, in either mode and with any channel
    selection. *)
Theorem updateDrawing_settles (o : Scope F) :
  updateDrawing (updateDrawing o) = updateDrawing o.
Proof.
  assert (Hcases :
    updateDrawing o = o
    \/ (is_off (channel_selection_ (updateDrawing o)) = false
        /\ scope_mode_ (updateDrawing o) = WAVEFORM
        /\ params_changed_ (waveform_parameters_ (updateDrawing o)) = false)
    \/ (is_off (channel_selection_ (updateDrawing o)) = false
        /\ scope_mode_ (updateDrawing o) = SPECTRUM
        /\ params_changed_ (spectrum_parameters_ (updateDrawing o)) = false)).
  { unfold updateDrawing, getParamsIfDirty.
    destruct (is_off (channel_selection_ o)) eqn:Hoff; [by left|].
    destruct (scope_mode_ o) eqn:Hm.
    - destruct (params_changed_ (waveform_parameters_ o)); [|by left].
      right. left. done.
    - destruct (params_changed_ (spectrum_parameters_ o)); [|by left].
      right. right. done. }
  destruct Hcases as [Hsame | [(Hoff & Hm & Hd) | (Hoff & Hm & Hd)]].
  - by rewrite !Hsame.
  - set (o' := updateDrawing o) in *. clearbody o'.
    unfold updateDrawing, getParamsIfDirty. by rewrite Hoff, Hm, Hd.
  - set (o' := updateDrawing o) in *. clearbody o'.
    unfold updateDrawing, getParamsIfDirty. by rewrite Hoff, Hm, Hd.
Qed.

Lemma edits_while_off eds : forall o : Scope F,
  channel_selection_ o = OFF ->
  channel_selection_ (edits eds o) = OFF
  /\ scope_mode_ (edits eds o) = scope_mode_ o
  /\ waveform_ (edits eds o) = waveform_ o
  /\ background_waveform_params_ (edits eds o)
     = background_waveform_params_ o
  /\ params_ (waveform_parameters_ (edits eds o))
     = foldl (fun p ed => edit_waveform ed p)
             (params_ (waveform_parameters_ o)) eds
  /\ (eds <> [] -> params_changed_ (waveform_parameters_ (edits eds o)) = true).
Proof.
  induction eds as [|ed eds IH]; intros o Hoff; [done|].
  change (edits (ed :: eds) o)
    with (edits eds (updateDrawing (editWaveform ed o))).
  assert (Hu : updateDrawing (editWaveform ed o) = editWaveform ed o).
  { unfold updateDrawing. cbn [editWaveform channel_selection_].
    by rewrite Hoff. }
  rewrite Hu.
  destruct (IH (editWaveform ed o) Hoff) as (H1 & H2 & H3 & H4 & H5 & H6).
  split; [done|]. split; [done|]. split; [done|]. split; [done|].
  split; [done|].
  intros _. destruct eds as [|ed' eds]; [done|by apply H6].
Qed.

(** X16.  Edits made while both channels are off wait for a channel: in
    waveform mode, however many controls are moved and however many redraw
    ticks pass, neither the display nor the background sees a new value;
    the first tick after a channel is switched on gives both the combined
    result of all the edits, clears the flag, and later ticks change
    nothing. *)
Theorem edits_wait_for_a_channel eds ed left right (o : Scope F) :
  channel_selection_ o = OFF ->
  scope_mode_ o = WAVEFORM ->
  left || right = true ->
  let p := foldl (fun p ed => edit_waveform ed p)
                 (params_ (waveform_parameters_ o)) (ed :: eds) in
  let off := edits (ed :: eds) o in
  let on := updateDrawing (toggleChannel left right off) in
  WaveformDisplay.params_ (waveform_ off) = WaveformDisplay.params_ (waveform_ o)
  /\ background_waveform_params_ off = background_waveform_params_ o
  /\ WaveformDisplay.params_ (waveform_ on) = p
  /\ background_waveform_params_ on = p
  /\ params_changed_ (waveform_parameters_ on) = false
  /\ updateDrawing on = on.
Proof.
  intros Hoff Hm Hlr p off on.
  destruct (edits_while_off (ed :: eds) o Hoff)
    as (H1 & H2 & H3 & H4 & H5 & H6).
  fold off in H1, H2, H3, H4, H5, H6.
  specialize (H6 ltac:(done)).
  assert (Hon : is_off (channel_of left right) = false).
  { by destruct left, right. }
  assert (Hshape : on =
    {| channel_selection_ := channel_of left right;
       scope_mode_ := WAVEFORM;
       waveform_ := WaveformDisplayOps.setParameters p (waveform_ off);
       waveform_parameters_ := {| params_ := p; params_changed_ := false |};
       spectrum_params_ := spectrum_params_ off;
       spectrum_parameters_ := spectrum_parameters_ off;
       background_waveform_params_ := p;
       background_spectrum_params_ := background_spectrum_params_ off;
       background_mode_ := background_mode_ off;
       spectrum_data_ := spectrum_data_ off |}).
  { unfold on, updateDrawing, getParamsIfDirty.
    cbn [toggleChannel channel_selection_ scope_mode_ waveform_parameters_].
    rewrite Hon, H2, Hm, H6.
    cbn [toggleChannel waveform_ waveform_parameters_ spectrum_params_
         spectrum_parameters_ background_waveform_params_
         background_spectrum_params_ background_mode_ spectrum_data_
         channel_selection_ scope_mode_].
    clearbody off. subst p. rewrite <- H5. reflexivity. }
  split; [by rewrite H3|]. split; [done|].
  rewrite Hshape. cbn. repeat split; try done.
  unfold updateDrawing. cbn. by rewrite Hon.
Qed.

End Ticks.
End OscilloscopeMore.

(** ** The spectrum display: what [paint] does to the displayed data *)

Module SpectrumMore.
Import SpectrumDisplay SpectrumDisplayOps.

Section Paint.
Context {F : Type} `{Arith F}.
Variables (k : Constants F) (dbRange : F) (height : Z) (samplerate : F)
  (fftSize : Z) (last_updated_time_ now : F) (new_scope_data_ : list F).

Local Abbreviation bin :=
  (paint_bin k dbRange height samplerate fftSize last_updated_time_ now
             new_scope_data_).

Lemma paint_bin_length d i : length (bin d i) = length d.
Proof.
  unfold paint_bin. destruct (_ || _); [done|].
  destruct (d !! i); [|done]. destruct (new_scope_data_ !! i); [|done].
  apply length_insert.
Qed.

Lemma paint_bin_other d i j : i <> j -> bin d i !! j = d !! j.
Proof.
  intros Hij. unfold paint_bin. destruct (_ || _); [done|].
  destruct (d !! i); [|done]. destruct (new_scope_data_ !! i); [|done].
  by rewrite list_lookup_insert_ne.
Qed.

Lemma paint_bin_same d i :
  bin d i !! i =
  match d !! i, new_scope_data_ !! i with
  | Some y0, Some v =>
      if out_of_band k samplerate fftSize i then Some y0
      else Some (interpolate last_updated_time_
                   (lit 1 / (samplerate / of_int fftSize))%F y0
                   (dbToY k dbRange v height) now)
  | other, _ => other
  end.
Proof.
  unfold paint_bin, out_of_band. destruct (_ || _).
  - destruct (d !! i); [|done]. by destruct (new_scope_data_ !! i).
  - destruct (d !! i) eqn:Hd; [|by rewrite Hd].
    destruct (new_scope_data_ !! i); [|done].
    rewrite list_lookup_insert_eq; [done|]. by eapply lookup_lt_Some.
Qed.

Lemma paint_fold_lookup d n i :
  foldl bin d (seq 0 n) !! i
  = if decide (i < n) then bin d i !! i else d !! i.
Proof.
  induction n as [|n IH].
  - cbn [seq foldl]. by case_decide; [lia|].
  - rewrite seq_S, foldl_snoc. cbn [Nat.add].
    destruct (decide (n = i)) as [->|Hne].
    + rewrite paint_bin_same. rewrite IH.
      case_decide; [lia|]. case_decide; [|lia]. by rewrite paint_bin_same.
    + rewrite paint_bin_other, IH by done.
      repeat case_decide; try lia; done.
Qed.

(** X17.  [paint] leaves alone what it does not draw: the displayed data
    keeps its length, and a bin whose frequency is outside the band, or
    whose number is not below [fftSize / 2], keeps its value. *)
Theorem spectrum_paint_skips_out_of_band d i :
  out_of_band k samplerate fftSize i = true \/ Z.to_nat (fftSize ÷ 2) <= i ->
  length (paint_displayed k dbRange height samplerate fftSize
            last_updated_time_ now new_scope_data_ d) = length d
  /\ paint_displayed k dbRange height samplerate fftSize
       last_updated_time_ now new_scope_data_ d !! i = d !! i.
Proof.
  intros Hout. unfold paint_displayed. split.
  - generalize (Z.to_nat (fftSize ÷ 2)). intros n.
    induction n as [|n IH]; [done|].
    by rewrite seq_S, foldl_snoc, paint_bin_length.
  - rewrite paint_fold_lookup. case_decide as Hi; [|done].
    destruct Hout as [Hout|]; [|lia].
    rewrite paint_bin_same, Hout.
    destruct (d !! i); [|done]. by destruct (new_scope_data_ !! i).
Qed.

End Paint.

Section Exact.
Import ExactQ ExactQFacts DcFilterFacts.

Local Open Scope Q_scope.

Lemma mu_facts (last mtbs t : Q) :
  0 < mtbs ->
  let mu := juce.jlimit (lit 0) (lit 1) ((t - last) / mtbs)%F in
  0 <= mu <= 1
  /\ (t <= last -> mu == 0)
  /\ (last + mtbs <= t -> mu == 1).
Proof.
  intros Hm mu.
  assert (Hr : ((t - last) / mtbs)%F == (t - last) / mtbs).
  { exact_ops. by rewrite !Qred_correct. }
  unfold mu, juce.jlimit. set (r := ((t - last) / mtbs)%F) in *. clearbody r.
  exact_ops.
  change (Qred 0) with 0. change (Qred 1) with 1.
  assert (Hlo : t <= last -> r <= 0).
  { intros Ht. rewrite Hr. apply Qle_shift_div_r; [done|]. lra. }
  assert (Hhi : last + mtbs <= t -> 1 <= r).
  { intros Ht. rewrite Hr. apply Qle_shift_div_l; [done|]. lra. }
  destruct (Qltb r 0) eqn:H0.
  - apply Qltb_lt in H0. split; [lra|]. split; [reflexivity|].
    intros Ht. specialize (Hhi Ht). lra.
  - apply Qltb_ge in H0. destruct (Qltb 1 r) eqn:H1.
    + apply Qltb_lt in H1. split; [lra|]. split; [|reflexivity].
      intros Ht. specialize (Hlo Ht). lra.
    + apply Qltb_ge in H1. split; [lra|]. split; intros Ht.
      * specialize (Hlo Ht). lra.
      * specialize (Hhi Ht). lra.
Qed.

Lemma interpolate_between (last mtbs y0 y1 t : Q) :
  0 < mtbs ->
  (t <= last -> interpolate last mtbs y0 y1 t == y0)
  /\ (last + mtbs <= t -> interpolate last mtbs y0 y1 t == y1)
  /\ (y0 <= y1 -> y0 <= interpolate last mtbs y0 y1 t <= y1)
  /\ (y1 <= y0 -> y1 <= interpolate last mtbs y0 y1 t <= y0).
Proof.
  intros Hm. destruct (mu_facts last mtbs t Hm) as (Hmu & Hzero & Hone).
  unfold interpolate.
  set (mu := juce.jlimit (lit 0) (lit 1) ((t - last) / mtbs)%F) in *.
  clearbody mu. exact_ops. rewrite !Qred_correct.
  change (inject_Z 1) with 1.
  split; [|split; [|split]].
  - intros Ht. rewrite (Hzero Ht). ring.
  - intros Ht. rewrite (Hone Ht). ring.
  - intros Hy.
    assert (0 <= (y1 - y0) * mu) by (apply Qmult_le_0_compat; lra).
    assert ((y1 - y0) * mu <= (y1 - y0) * 1)
      by (rewrite !(Qmult_comm (y1 - y0)); apply Qmult_le_compat_r; lra).
    split; lra.
  - intros Hy.
    assert (0 <= (y0 - y1) * mu) by (apply Qmult_le_0_compat; lra).
    assert ((y0 - y1) * mu <= (y0 - y1) * 1)
      by (rewrite !(Qmult_comm (y0 - y1)); apply Qmult_le_compat_r; lra).
    split; lra.
Qed.

Lemma mtbs_exact (samplerate : Q) (fftSize : Z) :
  0 < samplerate -> (0 < fftSize)%Z ->
  (lit 1 / (samplerate / of_int fftSize))%F == inject_Z fftSize / samplerate
  /\ 0 < (lit 1 / (samplerate / of_int fftSize))%F.
Proof.
  intros Hsr Hn.
  assert (Hnq : 0 < inject_Z fftSize).
  { change 0 with (inject_Z 0). by rewrite <- Zlt_Qlt. }
  assert (Heq : (lit 1 / (samplerate / of_int fftSize))%F
                == inject_Z fftSize / samplerate).
  { exact_ops. rewrite !Qred_correct. change (Qred 1) with 1.
    field. split; lra. }
  split; [done|]. rewrite Heq. apply Qlt_shift_div_l; [done|]. lra.
Qed.

(** X18.  A bin in the band follows the published value: [paint] moves
    its displayed y from where it was towards the y of the last published
    value, never past either; it stays where it was when painted no later
    than the publication, and it is at the published y once the time of
    [fftSize / samplerate] seconds has passed since. *)
Theorem spectrum_paint_catches_up (k : Constants Q) (dbRange : Q)
    (height : Z) (samplerate : Q) (fftSize : Z) (last now : Q)
    (new d : list Q) (i : nat) (y0 v : Q) :
  0 < samplerate -> (0 < fftSize)%Z ->
  (i < Z.to_nat (fftSize ÷ 2))%nat ->
  out_of_band k samplerate fftSize i = false ->
  d !! i = Some y0 -> new !! i = Some v ->
  let y1 := dbToY k dbRange v height in
  exists y,
    paint_displayed k dbRange height samplerate fftSize last now new d !! i
      = Some y
    /\ (now <= last -> y == y0)
    /\ (last + inject_Z fftSize / samplerate <= now -> y == y1)
    /\ (y0 <= y1 -> y0 <= y <= y1)
    /\ (y1 <= y0 -> y1 <= y <= y0).
Proof.
  intros Hsr Hn Hi Hband Hd Hnew y1. unfold paint_displayed.
  rewrite paint_fold_lookup. case_decide; [|lia].
  rewrite paint_bin_same, Hd, Hnew, Hband.
  eexists. split; [done|]. fold y1.
  destruct (mtbs_exact samplerate fftSize Hsr Hn) as [Heq Hpos].
  set (mtbs := (lit 1 / (samplerate / of_int fftSize))%F) in *.
  clearbody mtbs.
  destruct (interpolate_between last mtbs y0 y1 now Hpos)
    as (H1 & H2 & H3 & H4).
  split; [done|]. split; [|done].
  intros Hlate. apply H2. rewrite Heq. done.
Qed.

(** X19.  The two dials of the spectrum panel: [dbRange] is never
    negative, and for dial positions between 0 and 1 the noise floor lies
    between -100 and -50 dB, the maximum between -50 and 0 dB, and
    [dbRange] is their difference, at most 100 dB. *)
Theorem spectrum_dials_in_range (p : Parameters Q) :
  0 <= SpectrumDisplay.dbRange p
  /\ (0 <= noise_floor p <= 1 -> 0 <= max_db p <= 1 ->
      -100 <= noiseFloor p <= -50
      /\ -50 <= maxDb p <= 0
      /\ SpectrumDisplay.dbRange p == maxDb p - noiseFloor p
      /\ SpectrumDisplay.dbRange p <= 100).
Proof.
  unfold SpectrumDisplay.dbRange, juce.jmax, noiseFloor, maxDb. exact_ops.
  change (Qred 0) with 0. change (Qred 2) with 2. change (Qred 1) with 1.
  change (Qred 50) with 50.
  set (a := Qred (Qred (Qred (max_db p - 1) * 50)
                  - Qred (Qred (noise_floor p - 2) * 50))).
  assert (Ha : a == (max_db p - 1) * 50 - (noise_floor p - 2) * 50).
  { unfold a. by rewrite !Qred_correct. }
  clearbody a.
  destruct (Qltb a 0) eqn:Hc.
  - apply Qltb_lt in Hc. split; [lra|]. intros Hn Hx.
    rewrite !Qred_correct. lra.
  - apply Qltb_ge in Hc. split; [done|]. intros Hn Hx.
    rewrite !Qred_correct. repeat split; lra.
Qed.

End Exact.
End SpectrumMore.

(** ** The test runner *)

Module TestRunnerFacts.
Import String TestRunner.

Section Facts.
Variable atoi : string -> Z.
Variable runAllTests : list string -> Z.

Lemma same_eq a b : same a b = true <-> a = b.
Proof. apply String.eqb_eq. Qed.

Local Ltac option_case name :=
  let E := fresh "E" in
  match goal with
  | |- context [same ?opt name] =>
      destruct (same opt name) eqn:E;
      [apply same_eq in E; subst; repeat split;
       try (let Hn := fresh in intros Hn; exfalso; apply Hn; cbn; tauto);
       vm_compute; eauto; try lia;
       try (intros [? ?]; discriminate); try discriminate|]
  end.

(** X20.  In utility mode (a first argument [--non-test] followed by at
    least one more) the tests never run and at most one utility is called;
    [main] returns 0 or 1 unless it runs into a missing operand, and it
    returns 1 only for [--filter-analyzer] without any operand.  An option
    that is none of the six known ones calls nothing and returns 0. *)
Theorem non_test_mode_runs_at_most_one_utility prog opt rest :
  let run := main atoi runAllTests
                  (prog :: "--non-test"%string :: opt :: rest) in
  filter is_tests (trace run) = []
  /\ List.length (filter is_utility (trace run)) <= 1
  /\ (result run = Return 0 \/ result run = Return 1
      \/ exists i, result run = BadArgument i)
  /\ (result run = Return 1 <->
      opt = "--filter-analyzer"%string /\ rest = [])
  /\ (~ In opt ["--initialize-pdb"; "--stats-from-every-patch";
                "--restream-templates"; "--generate-nlf-norms";
                "--filter-analyzer"; "--performance"]%string ->
      run = {| trace := [PrintVersion; PrintNonTestMode opt];
               result := Return 0 |}).
Proof.
  intros run. unfold run, main. cbn [lookup list_lookup].
  assert (Hnt : same "--non-test" "--non-test" = true) by reflexivity.
  rewrite Hnt. clear Hnt.
  unfold non_test, plain_utilities, filter_analyzer, performance.
  cbn [lookup list_lookup List.length].
  destruct rest as [|a [|b rest]];
    cbn [lookup list_lookup List.length Nat.ltb Nat.leb].
  all: option_case "--initialize-pdb"%string.
  all: option_case "--stats-from-every-patch"%string.
  all: option_case "--restream-templates"%string.
  all: option_case "--generate-nlf-norms"%string.
  all: option_case "--filter-analyzer"%string.
  all: option_case "--performance"%string.
  all: cbn; repeat split; eauto; try lia; try discriminate.
  all: intros [-> _]; discriminate.
Qed.

(** X21.  The operands of the two utilities that take them.
    [--filter-analyzer] without an operand prints its usage line and
    returns 1; with exactly one operand it passes the check of [argc] and
    then uses [argv[4]], which is [argv[argc]], as a string, without calling
    the analyzer; with two or more it calls the analyzer on the first two
    and returns 0.  [--performance] has no check: without two operands it
    uses a missing argument, and with two it plays and returns 0. *)
Theorem utility_operands prog rest :
  let fa := main atoi runAllTests
              (prog :: "--non-test" :: "--filter-analyzer" :: rest)%string in
  let pf := main atoi runAllTests
              (prog :: "--non-test" :: "--performance" :: rest)%string in
  match rest with
  | [] =>
      fa = {| trace := [PrintVersion; PrintNonTestMode "--filter-analyzer";
                        PrintFilterUsage];
              result := Return 1 |}
      /\ pf = {| trace := [PrintVersion; PrintNonTestMode "--performance"];
                 result := BadArgument 3 |}
  | [a] =>
      fa = {| trace := [PrintVersion; PrintNonTestMode "--filter-analyzer"];
              result := BadArgument 4 |}
      /\ pf = {| trace := [PrintVersion; PrintNonTestMode "--performance"];
                 result := BadArgument 4 |}
  | a :: b :: _ =>
      fa = {| trace := [PrintVersion; PrintNonTestMode "--filter-analyzer";
                        FilterAnalyzer (atoi a) (atoi b)];
              result := Return 0 |}
      /\ pf = {| trace := [PrintVersion; PrintNonTestMode "--performance";
                           PerformancePlay a (atoi b)];
                 result := Return 0 |}
  end.
Proof.
  destruct rest as [|a [|b rest]]; split; reflexivity.
Qed.

(** X22.  Every other command line goes to the tests: when the first
    argument is not [--non-test], or nothing follows it, [main] calls no
    utility, hands the whole command line to [runAllTests] as its last
    action and returns what that returns; [--help] only adds the text
    about the two modes before it. *)
Theorem other_command_lines_run_the_tests argv :
  argv !! 1%nat <> Some "--non-test"%string \/ List.length argv <= 2 ->
  let run := main atoi runAllTests argv in
  result run = Return (runAllTests argv)
  /\ filter is_utility (trace run) = []
  /\ last (trace run) = Some (RunAllTests argv)
  /\ (In PrintHelp (trace run) <-> argv !! 1%nat = Some "--help"%string).
Proof.
  intros Hmode run.
  assert (Hreg : run = regtest runAllTests argv).
  { unfold run, main.
    destruct (argv !! 1%nat) as [a1|] eqn:H1; [|done].
    destruct (argv !! 2%nat) as [a2|] eqn:H2; [|done].
    destruct (same a1 "--non-test") eqn:E; [|done].
    apply same_eq in E. subst a1.
    destruct Hmode as [Hne|Hlen]; [done|].
    apply lookup_lt_Some in H2. lia. }
  rewrite Hreg. unfold regtest. cbn [trace result].
  destruct (argv !! 1%nat) as [a1|] eqn:H1.
  - destruct (same a1 "--help") eqn:E.
    + apply same_eq in E. subst a1. cbn. repeat split; auto.
    + cbn. repeat split; try done.
      * intros [?|[?|[]]]; discriminate.
      * intros [= ->]. by rewrite (proj2 (same_eq _ _) eq_refl) in E.
  - cbn. repeat split; try done.
    intros [?|[?|[]]]; discriminate.
Qed.

End Facts.
End TestRunnerFacts.

(** ** The further properties on the example values *)

Module MoreInstances.
Import ExactQ ExactQFacts Examples MoreExamples.

Local Open Scope Q_scope.

Section Waveform.
Import WaveformDisplay WaveformDisplayOps WaveformFacts WaveformMore.
Import DcFilterFacts ExactMore.

(** X2 on a fresh Free display fed with [ex_block]. *)
Lemma X2_witness :
  (index ex_free <= getWidth ex_env)%nat
  /\ (index (process ex_env ex_free ex_block) <= getWidth ex_env)%nat.
Proof.
  assert (H1 : (index ex_free <= getWidth ex_env)%nat) by (vm_compute; lia).
  split; [exact H1|].
  destruct (process_keeps_buffer_shape ex_env ex_free ex_block)
    as (_ & _ & _ & _ & _ & Hi).
  exact (Hi H1).
Defined.

(** X3 on a Falling display fed with [ex_block]. *)
Lemma X3_witness :
  trigger_type (params_ ex_falling) = kTriggerFalling
  /\ forall i j evi evj, (i < j)%nat ->
       (process_events ex_env ex_falling ex_block).2 !! i = Some evi ->
       (process_events ex_env ex_falling ex_block).2 !! j = Some evj ->
       ev_trigger evi = true -> ev_trigger evj = true ->
       (l_triggerLimit (locals ex_env (params_ ex_falling))
        <= Z.of_nat (j - i))%Z.
Proof.
  split; [reflexivity|].
  apply (proj2 (falling_trigger_and_lockout ex_env ex_falling ex_block
                  eq_refl)).
Defined.

(** X4 on a Rising display fed with silence. *)
Lemma X4_witness :
  Forall (fun ev => ev_trigger ev = false)
         (process_events ex_env ex_rising ex_quiet).2
  /\ copy (process ex_env ex_rising ex_quiet) = copy ex_rising.
Proof.
  assert (H1 : Forall (fun ev => ev_trigger ev = false)
                      (process_events ex_env ex_rising ex_quiet).2).
  { vm_compute. repeat (apply List.Forall_cons; [reflexivity|]).
    apply List.Forall_nil. }
  split; [exact H1|].
  exact (sync_copy_kept_between_triggers ex_env ex_rising ex_quiet H1).
Defined.

(** X5 on a Free display whose buffer is full: the first sample of
    [ex_block] triggers. *)
Lemma X5_witness :
  (lit 1 + counterSpeed (params_ ex_full) >=? lit 1)%F = true
  /\ (0 < getWidth ex_env)%nat
  /\ exists ev,
       (process_events ex_env ex_full ex_block).2 !! 0%nat = Some ev
       /\ ev_trigger ev = true
       /\ ev_wrote ev = true
       /\ index (process ex_env ex_full (take 1 ex_block)) = 1%nat.
Proof.
  assert (H1 : (lit 1 + counterSpeed (params_ ex_full) >=? lit 1)%F = true)
    by (vm_compute; reflexivity).
  assert (H2 : (0 < getWidth ex_env)%nat) by (vm_compute; lia).
  split; [exact H1|]. split; [exact H2|].
  eexists. split; [vm_compute; reflexivity|].
  split; [reflexivity|].
  apply (accepted_trigger_writes_first_column ex_env ex_full ex_block 0 _
           H1 H2).
  - vm_compute. reflexivity.
  - reflexivity.
Defined.

(** X7 on the first sample of [ex_block], and in IEEE arithmetic on a
    block that is a single NaN. *)
Lemma X7_witness :
  ((lit (-1) <? lit (-1))%F = false
   /\ (lit 1 <? lit 1)%F = false
   /\ (lit 1 <? lit (-1))%F = false
   /\ exists ev,
        (process_events ex_env ex_free ex_block).2 !! 0%nat = Some ev
        /\ (ev_sample ev <? lit (-1))%F = false
        /\ (lit 1 <? ev_sample ev)%F = false)
  /\ (forall pow log,
        PrimFloat.ltb (@lit _ (Ieee.Float_Arith pow log) (-1))
                      (@lit _ (Ieee.Float_Arith pow log) (-1)) = false
        /\ PrimFloat.ltb (@lit _ (Ieee.Float_Arith pow log) 1)
                         (@lit _ (Ieee.Float_Arith pow log) 1) = false
        /\ PrimFloat.ltb (@lit _ (Ieee.Float_Arith pow log) 1)
                         (@lit _ (Ieee.Float_Arith pow log) (-1)) = false
        /\ forall k ev,
             (@process_events _ (Ieee.Float_Arith pow log)
                (IeeeExamples.fl_env 48000)
                (IeeeExamples.fl_state PrimFloat.zero) [PrimFloat.nan]).2
               !! k = Some ev ->
             PrimFloat.ltb (ev_sample ev)
                           (@lit _ (Ieee.Float_Arith pow log) (-1)) = false
             /\ PrimFloat.ltb (@lit _ (Ieee.Float_Arith pow log) 1)
                              (ev_sample ev) = false).
Proof.
  assert (H1 : (lit (-1) <? lit (-1))%F = false) by reflexivity.
  assert (H2 : (lit 1 <? lit 1)%F = false) by reflexivity.
  assert (H3 : (lit 1 <? lit (-1))%F = false) by reflexivity.
  split.
  - split; [exact H1|]. split; [exact H2|]. split; [exact H3|].
    eexists. split; [vm_compute; reflexivity|].
    apply (@samples_are_clamped Q _ ex_env ex_free ex_block 0 _ H1 H2 H3).
    vm_compute. reflexivity.
  - intros pow log.
    assert (F1 : PrimFloat.ltb (@lit _ (Ieee.Float_Arith pow log) (-1))
                   (@lit _ (Ieee.Float_Arith pow log) (-1)) = false)
      by (vm_compute; reflexivity).
    assert (F2 : PrimFloat.ltb (@lit _ (Ieee.Float_Arith pow log) 1)
                   (@lit _ (Ieee.Float_Arith pow log) 1) = false)
      by (vm_compute; reflexivity).
    assert (F3 : PrimFloat.ltb (@lit _ (Ieee.Float_Arith pow log) 1)
                   (@lit _ (Ieee.Float_Arith pow log) (-1)) = false)
      by (vm_compute; reflexivity).
    split; [exact F1|]. split; [exact F2|]. split; [exact F3|].
    intros k ev.
    exact (@samples_are_clamped _ (Ieee.Float_Arith pow log)
             (IeeeExamples.fl_env 48000)
             (IeeeExamples.fl_state PrimFloat.zero) [PrimFloat.nan] k ev
             F1 F2 F3).
Defined.

(** X8 on the Free parameters, with the speed dial moved to 0.9. *)
Lemma X8_witness :
  is_internal (trigger_type (ex_params kTriggerFree 0.3 false)) = false
  /\ process_events ex_env
       (setParameters
          (Oscilloscope.edit_waveform (Oscilloscope.SetTriggerSpeed 0.9)
             (ex_params kTriggerFree 0.3 false)) ex_free) ex_block
     = (setParameters
          (Oscilloscope.edit_waveform (Oscilloscope.SetTriggerSpeed 0.9)
             (ex_params kTriggerFree 0.3 false))
          (process_events ex_env
             (setParameters (ex_params kTriggerFree 0.3 false) ex_free)
             ex_block).1,
        (process_events ex_env
           (setParameters (ex_params kTriggerFree 0.3 false) ex_free)
           ex_block).2).
Proof.
  split; [reflexivity|].
  apply (trigger_speed_ignored ex_env (ex_params kTriggerFree 0.3 false)
           0.9 ex_free ex_block).
  reflexivity.
Defined.

(** X9 on the Free parameters, with the level dial moved to 0.9. *)
Lemma X9_witness :
  (is_free (trigger_type (ex_params kTriggerFree 0.3 false)) = true
   \/ is_internal (trigger_type (ex_params kTriggerFree 0.3 false)) = true)
  /\ process_events ex_env
       (setParameters
          (Oscilloscope.edit_waveform (Oscilloscope.SetTriggerLevel 0.9)
             (ex_params kTriggerFree 0.3 false)) ex_free) ex_block
     = (setParameters
          (Oscilloscope.edit_waveform (Oscilloscope.SetTriggerLevel 0.9)
             (ex_params kTriggerFree 0.3 false))
          (process_events ex_env
             (setParameters (ex_params kTriggerFree 0.3 false) ex_free)
             ex_block).1,
        (process_events ex_env
           (setParameters (ex_params kTriggerFree 0.3 false) ex_free)
           ex_block).2).
Proof.
  split; [left; reflexivity|].
  apply (trigger_level_and_limit_ignored ex_env
           (ex_params kTriggerFree 0.3 false)
           (Oscilloscope.SetTriggerLevel 0.9) 0.9 ex_free ex_block).
  - left. reflexivity.
  - left. reflexivity.
Defined.

(** X10 on an Internal display with a speed of 0.4: the seven samples of
    [ex_block] bring the phase to 2.8, so two triggers are accepted. *)
Lemma X10_witness :
  0 <= l_triggerSpeed ex_osc_locals < 1
  /\ trigger_type (params_ ex_internal) = kTriggerInternal
  /\ 0 <= triggerPhase ex_internal < 1
  /\ Z.of_nat (triggers_accepted
                 (process_loop ex_env ex_osc_locals ex_internal ex_block).2)
     = Qfloor (triggerPhase ex_internal
               + inject_Z (Z.of_nat (length ex_block))
                 * l_triggerSpeed ex_osc_locals).
Proof.
  assert (H1 : 0 <= l_triggerSpeed ex_osc_locals < 1)
    by (split; [discriminate|reflexivity]).
  assert (H2 : 0 <= triggerPhase ex_internal < 1)
    by (split; [discriminate|reflexivity]).
  split; [exact H1|]. split; [reflexivity|]. split; [exact H2|].
  exact (proj1 (internal_trigger_count ex_env ex_osc_locals ex_internal
                  ex_block H1 eq_refl H2)).
Defined.

(** X11 on a fresh Free display fed with [ex_block], for the samples
    from -1 to 1 and the y values from 0 to the height. *)
Lemma X11_witness :
  (forall m, -1 <= m <= 1 ->
     0 <= juce.jmap m (of_int (-1)) (of_int 1)
                    (of_int (getHeight ex_env)) (of_int 0)
       <= inject_Z (getHeight ex_env))
  /\ 0 <= centerline ex_env <= inject_Z (getHeight ex_env)
  /\ Forall (fun ev => takes_part (fun m => -1 <= m <= 1) (ev_sample ev))
            (process_events ex_env ex_free ex_block).2
  /\ ys_ok (fun y => 0 <= y <= inject_Z (getHeight ex_env))
           (fun m => -1 <= m <= 1) ex_free
  /\ ys_ok (fun y => 0 <= y <= inject_Z (getHeight ex_env))
           (fun m => -1 <= m <= 1) (process ex_env ex_free ex_block).
Proof.
  assert (H1 : forall m, -1 <= m <= 1 ->
            0 <= juce.jmap m (of_int (-1)) (of_int 1)
                           (of_int (getHeight ex_env)) (of_int 0)
              <= inject_Z (getHeight ex_env)).
  { intros m Hm. apply jmap_in_component; [discriminate|exact Hm]. }
  assert (H2 : 0 <= centerline ex_env <= inject_Z (getHeight ex_env))
    by (split; discriminate).
  assert (H3 : Forall (fun ev => takes_part (fun m => -1 <= m <= 1)
                                   (ev_sample ev))
                      (process_events ex_env ex_free ex_block).2).
  { eassert (Hev : (process_events ex_env ex_free ex_block).2 = _)
      by (vm_compute; reflexivity).
    rewrite Hev. clear Hev.
    repeat (apply List.Forall_cons;
            [split; [split; discriminate|split; vm_compute; reflexivity]|]).
    apply List.Forall_nil. }
  assert (H4 : ys_ok (fun y => 0 <= y <= inject_Z (getHeight ex_env))
                     (fun m => -1 <= m <= 1) ex_free).
  { split; [|split; [|split]].
    - vm_compute.
      repeat (apply List.Forall_cons; [split; discriminate|]).
      apply List.Forall_nil.
    - vm_compute.
      repeat (apply List.Forall_cons; [split; discriminate|]).
      apply List.Forall_nil.
    - left. split; discriminate.
    - left. split; discriminate. }
  split; [exact H1|]. split; [exact H2|]. split; [exact H3|].
  split; [exact H4|].
  exact (y_values_stay_in_component ex_env ex_free ex_block _ _ H1 H2 H3 H4).
Defined.


End Waveform.

Section Scope.
Import SpectrumDisplay SpectrumDisplayOps Oscilloscope OscilloscopeOps.
Import OscilloscopeFacts OscilloscopeMore SpectrumMore.

(** X13 on two blocks of five samples arriving at fill position 5 of 8. *)
Lemma X13_witness :
  (0 < fftSize ex_config)%Z
  /\ (0 <= pos_ (ex_spectrum 5) < fftSize ex_config)%Z
  /\ Forall (fun b => (Z.of_nat (length b) <= fftSize ex_config)%Z)
            [ex_samples; ex_samples]
  /\ pos_ (@pull_blocks Q _ ex_dsp ex_config (ex_spectrum 5)
             [ex_samples; ex_samples]).1
     = ((pos_ (ex_spectrum 5) + total_length [ex_samples; ex_samples])
        mod fftSize ex_config)%Z.
Proof.
  assert (H1 : (0 < fftSize ex_config)%Z) by reflexivity.
  assert (H2 : (0 <= pos_ (ex_spectrum 5) < fftSize ex_config)%Z)
    by (split; [discriminate|reflexivity]).
  assert (H3 : Forall (fun b => (Z.of_nat (length b) <= fftSize ex_config)%Z)
                      [ex_samples; ex_samples]).
  { repeat (apply List.Forall_cons; [discriminate|]). apply List.Forall_nil. }
  split; [exact H1|]. split; [exact H2|]. split; [exact H3|].
  exact (proj1 (@spectrum_blocks_position_and_passes Q _ ex_dsp ex_config
                  [ex_samples; ex_samples] (ex_spectrum 5) H1 H2 H3)).
Defined.

(** X14 on the spectrum scope and three iterations of the data loop. *)
Lemma X14_witness :
  (dbMin (constants ex_config) <=? dbMax (constants ex_config))%F = true
  /\ (length (scope_data_ (spectrum_data_ ex_scope_spectrum))
      <= Z.to_nat (fftSize ex_config ÷ 2))%nat
  /\ Forall (in_range (constants ex_config))
            (new_scope_data_ (spectrum_data_ ex_scope_spectrum))
  /\ Forall (in_range (constants ex_config))
            (new_scope_data_
               (spectrum_data_
                  (@pull_all Q _ ex_dsp ex_env ex_config ex_pops
                     ex_scope_spectrum))).
Proof.
  assert (H1 : (dbMin (constants ex_config) <=? dbMax (constants ex_config))%F
               = true) by reflexivity.
  assert (H2 : (length (scope_data_ (spectrum_data_ ex_scope_spectrum))
                <= Z.to_nat (fftSize ex_config ÷ 2))%nat)
    by (vm_compute; lia).
  assert (H3 : Forall (in_range (constants ex_config))
                      (new_scope_data_ (spectrum_data_ ex_scope_spectrum))).
  { vm_compute. repeat (apply List.Forall_cons; [split; reflexivity|]).
    apply List.Forall_nil. }
  split; [exact H1|]. split; [exact H2|]. split; [exact H3|].
  exact (@published_bins_stay_in_range Q _ _ ex_dsp ex_env ex_config ex_pops
           ex_scope_spectrum H1 H2 H3).
Defined.

(** X16 on the scope with both channels off: the time dial is moved and
    freeze is toggled, then the left channel is switched on. *)
Lemma X16_witness :
  channel_selection_ ex_scope = OFF
  /\ scope_mode_ ex_scope = WAVEFORM
  /\ true || false = true
  /\ WaveformDisplay.params_
       (waveform_ (updateDrawing
                     (toggleChannel true false (edits ex_edits ex_scope))))
     = foldl (fun p ed => edit_waveform ed p)
             (params_ (waveform_parameters_ ex_scope)) ex_edits.
Proof.
  split; [reflexivity|]. split; [reflexivity|]. split; [reflexivity|].
  destruct (edits_wait_for_a_channel [ToggleFreeze]
              (SetTimeWindow 0.1) true false ex_scope eq_refl eq_refl eq_refl)
    as (_ & _ & Hp & _).
  exact Hp.
Defined.

(** X17 on bin 0 of the eight-point configuration, at 0 Hz. *)
Lemma X17_witness :
  (out_of_band (constants ex_config) 48000 8 0 = true
   \/ (Z.to_nat (8 ÷ 2) <= 0)%nat)
  /\ paint_displayed (constants ex_config) 100 100 48000 8 0 1
       (new_scope_data_ (ex_spectrum 0)) ex_displayed !! 0%nat
     = ex_displayed !! 0%nat.
Proof.
  assert (H1 : out_of_band (constants ex_config) 48000 8 0 = true
               \/ (Z.to_nat (8 ÷ 2) <= 0)%nat) by (left; reflexivity).
  split; [exact H1|].
  exact (proj2 (spectrum_paint_skips_out_of_band (constants ex_config)
                  100 100 48000 8 0 1 (new_scope_data_ (ex_spectrum 0))
                  ex_displayed 0 H1)).
Defined.

(** X18 on bin 1 of the eight-point configuration, at 6 kHz, painted one
    second after the publication. *)
Lemma X18_witness :
  0 < 48000
  /\ (0 < 8)%Z
  /\ (1 < Z.to_nat (8 ÷ 2))%nat
  /\ out_of_band (constants ex_config) 48000 8 1 = false
  /\ ex_displayed !! 1%nat = Some 100
  /\ new_scope_data_ (ex_spectrum 0) !! 1%nat = Some (-100)
  /\ exists y,
       paint_displayed (constants ex_config) 100 100 48000 8 0 1
         (new_scope_data_ (ex_spectrum 0)) ex_displayed !! 1%nat = Some y
       /\ (0 + inject_Z 8 / 48000 <= 1 ->
           y == dbToY (constants ex_config) 100 (-100) 100).
Proof.
  assert (H1 : 0 < 48000) by reflexivity.
  assert (H2 : (0 < 8)%Z) by reflexivity.
  assert (H3 : (1 < Z.to_nat (8 ÷ 2))%nat) by (vm_compute; lia).
  assert (H4 : out_of_band (constants ex_config) 48000 8 1 = false)
    by reflexivity.
  assert (H5 : ex_displayed !! 1%nat = Some 100) by reflexivity.
  assert (H6 : new_scope_data_ (ex_spectrum 0) !! 1%nat = Some (-100))
    by reflexivity.
  split; [exact H1|]. split; [exact H2|]. split; [exact H3|].
  split; [exact H4|]. split; [exact H5|]. split; [exact H6|].
  destruct (spectrum_paint_catches_up (constants ex_config) 100 100 48000 8
              0 1 (new_scope_data_ (ex_spectrum 0)) ex_displayed 1 100 (-100)
              H1 H2 H3 H4 H5 H6)
    as (y & Hy & _ & Hlate & _).
  exists y. split; assumption.
Defined.

(** X19 with both dials at the middle. *)
Lemma X19_witness :
  0 <= noise_floor (spectrum_params_ ex_scope) <= 1
  /\ 0 <= max_db (spectrum_params_ ex_scope) <= 1
  /\ -100 <= noiseFloor (spectrum_params_ ex_scope) <= -50
  /\ -50 <= maxDb (spectrum_params_ ex_scope) <= 0.
Proof.
  assert (H1 : 0 <= noise_floor (spectrum_params_ ex_scope) <= 1)
    by (split; discriminate).
  assert (H2 : 0 <= max_db (spectrum_params_ ex_scope) <= 1)
    by (split; discriminate).
  split; [exact H1|]. split; [exact H2|].
  destruct (proj2 (spectrum_dials_in_range (spectrum_params_ ex_scope))
              H1 H2) as (Hn & Hm & _).
  split; assumption.
Defined.

End Scope.

Section Runner.
Import String TestRunner TestRunnerFacts.

(** X22 on a command line that asks for help. *)
Lemma X22_witness :
  (["surge"; "--help"]%string !! 1%nat <> Some "--non-test"%string
   \/ (List.length ["surge"; "--help"]%string <= 2)%nat)
  /\ result (main ex_atoi ex_runAllTests ["surge"; "--help"]%string)
     = Return (ex_runAllTests ["surge"; "--help"]%string).
Proof.
  assert (H1 : ["surge"; "--help"]%string !! 1%nat <> Some "--non-test"%string
               \/ (List.length ["surge"; "--help"]%string <= 2)%nat)
    by (left; discriminate).
  split; [exact H1|].
  exact (proj1 (other_command_lines_run_the_tests ex_atoi ex_runAllTests
                  ["surge"; "--help"]%string H1)).
Defined.

End Runner.
End MoreInstances.
